(** * An oblivious key-value store: the tutorial's three databases

    Shallow embedding of the notebook
    [examples/tutorials/Part 6 - Build an Encrypted, Decentralized Database]:
    the plaintext [TensorDB] (Section 5), the secret-shared
    [DecentralizedDB] with hashed keys (Section 6) and the
    [DecentralizedDB] with one-hot keys and fixed-length values (Section 7).

    Python strings are lists of characters; characters are 8-bit
    ([ascii], the code points below 256).  Tensors of rank one are lists
    of integers, matrices are lists of rows.  A call either returns or
    raises; a method of a database runs in a state-and-error monad over
    the object's fields. *)

From Stdlib Require Import ZArith Ascii.
From stdpp Require Import gmap strings list fin_maps.

Local Open Scope Z_scope.

(** ** Strings *)

Abbreviation str := (list ascii).

(** A literal of the notebook, as a list of characters. *)
Definition py (s : string) : str := String.list_ascii_of_string s.

(** ** Outcomes of a call *)

Inductive exn : Type :=
  | KeyError        (* a dict lookup that misses *)
  | IndexError      (* a list or shape index out of range *)
  | RuntimeError    (* raised by the tensor library: shapes, empty cat *)
  | RecursionError. (* the interpreter's recursion limit is reached *)

Inductive result (A : Type) : Type :=
  | Ok (a : A)
  | Raise (e : exn).
Arguments Ok {A} a.
Arguments Raise {A} e.

Global Instance result_ret : MRet result := λ A a, Ok a.
Global Instance result_bind : MBind result := λ A B f r,
  match r with
  | Ok a => f a
  | Raise e => Raise e
  end.

Global Instance result_fmap : FMap result := λ A B f r,
  match r with
  | Ok a => Ok (f a)
  | Raise e => Raise e
  end.

Definition of_option {A} (e : exn) (o : option A) : result A :=
  match o with
  | Some a => Ok a
  | None => Raise e
  end.

(** [mapM f l]: a loop that appends [f x] for each [x], stopping at the
    first exception. *)
Fixpoint mapM {A B} (f : A → result B) (l : list A) : result (list B) :=
  match l with
  | [] => Ok []
  | x :: l' =>
      match f x with
      | Ok y =>
          match mapM f l' with
          | Ok ys => Ok (y :: ys)
          | Raise e => Raise e
          end
      | Raise e => Raise e
      end
  end.

(** [foldM f a l]: a loop [for x in l: a = f(a, x)]. *)
Fixpoint foldM {A B} (f : A → B → result A) (a : A) (l : list B) : result A :=
  match l with
  | [] => Ok a
  | x :: l' =>
      match f a x with
      | Ok a' => foldM f a' l'
      | Raise e => Raise e
      end
  end.

(** ** The character tables

    [[
    for i, c in enumerate(alphabet):
        char2int[c] = i
        int2char[i] = c
    ]] *)

Fixpoint enumerate_from {A} (i : nat) (l : list A) : list (nat * A) :=
  match l with
  | [] => []
  | x :: l' => (i, x) :: enumerate_from (S i) l'
  end.

Definition enumerate {A} (l : list A) : list (nat * A) := enumerate_from 0 l.

Record tables : Type := mkTables {
  char2int : gmap ascii Z;
  int2char : gmap Z ascii
}.

Definition fill (t : tables) (ic : nat * ascii) : tables :=
  {| char2int := <[ic.2 := Z.of_nat ic.1]> (char2int t);
     int2char := <[Z.of_nat ic.1 := ic.2]> (int2char t) |}.

Definition make_tables (alphabet : str) : tables :=
  fold_left fill (enumerate alphabet) {| char2int := ∅; int2char := ∅ |}.
Global Arguments make_tables : simpl never.

(** [string.ascii_lowercase], [string.ascii_uppercase], the digits and
    [string.punctuation]; the double quote is character 34. *)
Definition ascii_lowercase : str := py "abcdefghijklmnopqrstuvwxyz".
Definition ascii_uppercase : str := py "ABCDEFGHIJKLMNOPQRSTUVWXYZ".
Definition ascii_letters : str := ascii_lowercase ++ ascii_uppercase.
Definition digits : str := py "0123456789".
Definition punctuation : str :=
  py "!" ++ ["034"%char] ++ py "#$%&'()*+,-./:;<=>?@[\]^_`{|}~".

(** Sections 2, 5 and 6 of the notebook. *)
Definition alphabet_letters : str :=
  py " " ++ ascii_letters ++ digits ++ punctuation.

(** Section 7 of the notebook. *)
Definition alphabet_lowercase : str :=
  py " " ++ ascii_lowercase ++ digits ++ punctuation.

(** The sentinel of [values2string] and the pad of the fixed-length
    encoders are both the full stop. *)
Definition dot : ascii := "."%char.
Definition space : ascii := " "%char.

(** ** Tensors

    Modelled from the spec: the tensor library ([sy.LongTensor], its
    sharing across owners and the arithmetic on shares) is outside the
    notebook.  Following the spec's substrate interface, a shared tensor
    reveals to the plaintext result of the same operations, so tensors
    are modelled by their plaintext; [norm] is the reduction the
    representation applies to every entry: 64-bit wrap-around for a plain
    [LongTensor], reduction modulo the field for shares. *)

Abbreviation tensor := (list Z).
Abbreviation matrix := (list (list Z)).

Class Arith : Type := { norm : Z → Z }.

Class ArithLaws (A : Arith) : Prop := {
  norm_idem : ∀ z, norm (norm z) = norm z;
  norm_small : ∀ z, 0 ≤ z < 256 → norm z = z
}.

Definition wrap64 (z : Z) : Z := (z + 2 ^ 63) `mod` 2 ^ 64 - 2 ^ 63.

Definition int64_arith : Arith := {| norm := wrap64 |}.
Definition field_arith (FIELD : Z) : Arith := {| norm := λ z, z `mod` FIELD |}.

(** Pointwise operation with the library's broadcasting on rank one:
    equal sizes, or one side of size one. *)
Definition pointwise (f : Z → Z → Z) (a b : tensor) : result tensor :=
  if decide (length a = length b) then Ok (zip_with f a b)
  else match a, b with
       | [x], _ => Ok (f x <$> b)
       | _, [y] => Ok ((λ x, f x y) <$> a)
       | _, _ => Raise RuntimeError
       end.

Definition tadd `{Arith} (a b : tensor) : result tensor :=
  pointwise (λ x y, norm (x + y)) a b.

Definition tmul `{Arith} (a b : tensor) : result tensor :=
  pointwise (λ x y, norm (x * y)) a b.

(** [a == b], as a tensor of 0 and 1. *)
Definition teq (a b : tensor) : result tensor :=
  pointwise (λ x y, if decide (x = y) then 1 else 0) a b.

(** A tensor of size one broadcast to size [n]; the library refuses
    the empty shape. *)
Definition expand (e : exn) (km : tensor) (n : nat) : result tensor :=
  match km, n with
  | [x], S _ => Ok (replicate n x)
  | [_], O => Raise e
  | _, _ => Raise RuntimeError
  end.

(** ** Methods: state and exceptions

    A method is a function of the object's fields that returns or
    raises and leaves the fields as the exception found them. *)

Definition M (S A : Type) : Type := S → result A * S.

Global Instance M_ret {S} : MRet (M S) := λ A a s, (Ok a, s).
Global Instance M_bind {S} : MBind (M S) := λ A B f m s,
  match m s with
  | (Ok a, s') => f a s'
  | (Raise e, s') => (Raise e, s')
  end.

Definition gets {S A} (f : S → A) : M S A := λ s, (Ok (f s), s).
Definition modify {S} (f : S → S) : M S unit := λ s, (Ok (), f s).
Definition lift {S A} (r : result A) : M S A := λ s, (r, s).

(** A method that never writes a field. *)
Definition readonly {S A} (m : M S A) : Prop := ∀ s, (m s).2 = s.

(** ** Masking and aggregation

    The three [query] methods share these lines:
    [[
    value_match = list()
    for i, value in enumerate(self.values):
        value_match.append(<key_match[i] expanded> * value)
    final_value = value_match[0]
    for v in value_match[1:]:
        final_value = final_value + v
    ]] *)

Section Select.

Context `{Arith} {K : Type}.
Variable key_matches : K → result tensor.
Variable shape_exn : exn.

Definition mask (key_match : list tensor) (iv : nat * tensor) : result tensor :=
  km ← of_option IndexError (key_match !! iv.1);
  expanded_key ← expand shape_exn km (length iv.2);
  tmul expanded_key iv.2.

Definition sum_values (value_match : list tensor) : result tensor :=
  match value_match with
  | [] => Raise IndexError
  | v0 :: rest => foldM tadd v0 rest
  end.

Definition select (ks : list K) (vs : list tensor) : result tensor :=
  key_match ← mapM key_matches ks;
  value_match ← mapM (mask key_match) (enumerate vs);
  sum_values value_match.

End Select.

(** The elementwise sum of a list of tensors of size [L], in the
    arithmetic of the representation. *)
Definition zadd `{Arith} (a b : tensor) : tensor :=
  zip_with (λ x y, norm (x + y)) a b.

Definition tsum `{Arith} (L : nat) (ts : list tensor) : tensor :=
  fold_left zadd ts (replicate L 0).

(** A character code fits a byte. *)
Definition small (x : Z) : Prop := 0 ≤ x < 256.

(** The values of the records whose key matches, in store order. *)
Fixpoint matching {K} (matched : K → bool) (ks : list K) (vs : list tensor)
  : list tensor :=
  match ks, vs with
  | k :: ks', v :: vs' =>
      if matched k then v :: matching matched ks' vs'
      else matching matched ks' vs'
  | _, _ => []
  end.

(** [values2string] of Section 6, over the tables that are global when
    it is called: a code outside [int2char] decodes to the sentinel. *)
Definition values2string_sentinel (t : tables) (input_values : tensor) : str :=
  (λ v, default dot (int2char t !! v)) <$> input_values.

(** [.share] and [.send] to the owners: the entries enter the
    arithmetic of the shares. *)
Definition share `{Arith} (t : tensor) : tensor := norm <$> t.
Definition share_matrix `{Arith} (m : matrix) : matrix := share <$> m.

(** * Section 5: the plaintext [TensorDB] *)

Module TensorDB.
Section WithHash.

(** Python's [hash] on strings and [sy.mpc.securenn.field]. *)
Variable hash : str → Z.
Variable field : Z.

Local Existing Instance int64_arith.

Definition T : tables := make_tables alphabet_letters.

Definition string2key (input_str : str) : tensor :=
  [hash input_str `mod` field].

Definition string2values (input_str : str) : result tensor :=
  mapM (λ char, of_option KeyError (char2int T !! char)) input_str.

Definition values2string (input_values : tensor) : result str :=
  mapM (λ v, of_option KeyError (int2char T !! v)) input_values.

Record state : Type := mkState {
  keys : list tensor;
  values : list tensor
}.

(** [__init__] *)
Definition init : state := {| keys := []; values := [] |}.

(** The key is appended before the value is encoded. *)
Definition add_entry (string_key string_value : str) : M state unit :=
  modify (λ s, {| keys := keys s ++ [string2key string_key];
                  values := values s |});;
  value ← lift (string2values string_value);
  modify (λ s, {| keys := keys s; values := values s ++ [value] |}).

(** The lines of [query] down to the sum, on the fields as read. *)
Definition final_value (s : state) (str_query : str) : result tensor :=
  let qhash := string2key str_query in
  select (λ key, teq key qhash) RuntimeError (keys s) (values s).

Definition query (str_query : str) : M state str :=
  s ← gets id;
  final_value ← lift (final_value s str_query);
  lift (values2string final_value).

End WithHash.
End TensorDB.

(** * Section 6: [DecentralizedDB] with hashed keys *)

Module HashedDB.
Section WithSubstrate.

Variable hash : str → Z.
Variable field : Z.

(** Modelled from the spec: [.get()] of the substrate, which is not
    in the notebook.  [get n t] is what the [n]-th run of the protocol
    reveals when exact arithmetic gives [t]; the notebook reports
    "a certain element of randomness" here, and each run draws fresh
    shares.  The exact substrate is [λ _ t, t]. *)
Variable get : nat → tensor → tensor.

(** [list(set(result))]: the characters of [result] in the order in
    which the interpreter iterates the set. *)
Variable set_list : str → list ascii.

Local Instance shares : Arith := field_arith field.

Definition T : tables := make_tables alphabet_letters.

Definition string2key (input_str : str) : tensor :=
  [(hash input_str + 1234) `mod` field].

Definition string2values (input_str : str) : result tensor :=
  mapM (λ char, of_option KeyError (char2int T !! char)) input_str.

Definition values2string : tensor → str := values2string_sentinel T.

Record state : Type := mkState {
  keys : list tensor;
  values : list tensor
}.

Definition init : state := {| keys := []; values := [] |}.

(** Both encodings are computed before either list is touched. *)
Definition add_entry (string_key string_value : str) : M state unit :=
  let key := share (string2key string_key) in
  value ← lift (share <$> string2values string_value);
  modify (λ s, {| keys := keys s ++ [key]; values := values s |});;
  modify (λ s, {| keys := keys s; values := values s ++ [value] |}).

(** The lines of [query] down to the sum, on the fields as read. *)
Definition final_value (s : state) (str_query : str) : result tensor :=
  let qhash := share (string2key str_query) in
  select (λ key, teq key qhash) IndexError (keys s) (values s).

(** One run of the protocol: the decoded aggregate, and whether the
    first element of its character set is the sentinel. *)
Definition attempt (n : nat) (s : state) (str_query : str)
  : result (str * bool) :=
  final_value ← final_value s str_query;
  let result := values2string (get n final_value) in
  first ← of_option IndexError (head (set_list result));
  mret (result, bool_decide (first = dot)).

(** [query]: [limit] is the number of frames the interpreter still
    allows, [n] counts the runs made so far.
    [[
    if(list(set(result))[0] == '.'):
        return self.query(str_query)
    return result
    ]] *)
Fixpoint query (limit n : nat) (str_query : str) : M state str :=
  match limit with
  | O => lift (Raise RecursionError)
  | S limit' =>
      s ← gets id;
      '(result, again) ← lift (attempt n s str_query);
      if again : bool then query limit' (S n) str_query
      else mret result
  end.

End WithSubstrate.
End HashedDB.

(** * Section 7: [DecentralizedDB] with one-hot keys *)

(** [str.lower()] on the code points below 256: the letters A to Z
    and the accented capitals of Latin-1, each lowered to one character.
    A code point above 255 can lower to two characters (U+0130 does);
    strings that hold one are outside this model, whose statements are
    about strings of 8-bit characters. *)
Definition lower_char (c : ascii) : ascii :=
  let n := nat_of_ascii c in
  if decide ((65 ≤ n ≤ 90) ∨ (192 ≤ n ≤ 214) ∨ (216 ≤ n ≤ 222))%nat
  then ascii_of_nat (n + 32)
  else c.

Definition lower (s : str) : str := lower_char <$> s.

(** [result.replace] of the full stop by nothing. *)
Definition remove_dots (s : str) : str := filter (λ c, c ≠ dot) s.

Module OneHotDB.
Section WithField.

Variable field : Z.

Local Instance shares : Arith := field_arith field.

Definition T : tables := make_tables alphabet_lowercase.

(** [[
    vect = sy.zeros(length).long()
    vect[index] = 1
    ]]
    An index outside the vector raises. *)
Definition one_hot (index : Z) (length : nat) : result tensor :=
  if decide (0 ≤ index < Z.of_nat length)
  then Ok (<[Z.to_nat index := 1]> (replicate length 0))
  else Raise IndexError.

(** The first lines of both encoders:
    [[
    str_input = str_input[:max_len].lower()
    if(len(str_input) < max_len):
        str_input = str_input + "." * (max_len - len(str_input))
    ]] *)
Definition truncate_pad (str_input : str) (max_len : nat) : str :=
  let str_input := lower (take max_len str_input) in
  if decide (length str_input < max_len)%nat
  then str_input ++ replicate (max_len - length str_input) dot
  else str_input.

(** [sy.cat(char_vectors, dim=0)] of rows; an empty list is refused. *)
Definition cat (char_vectors : list tensor) : result matrix :=
  match char_vectors with
  | [] => Raise RuntimeError
  | _ => Ok char_vectors
  end.

Definition string2one_hot_matrix (str_input : str) (max_len : nat)
  : result matrix :=
  char_vectors ←
    mapM (λ char, index ← of_option KeyError (char2int T !! char);
                  one_hot index (size (int2char T)))
         (truncate_pad str_input max_len);
  cat char_vectors.

Definition string2values (str_input : str) (max_len : nat) : result tensor :=
  mapM (λ char, of_option KeyError (char2int T !! char))
       (truncate_pad str_input max_len).

(** The function of Section 6, reading the tables of Section 7. *)
Definition values2string : tensor → str := values2string_sentinel T.

Record state : Type := mkState {
  max_key_len : nat;
  max_value_len : nat;
  keys : list matrix;
  values : list tensor
}.

Definition init (max_key_len max_value_len : nat) : state :=
  {| max_key_len := max_key_len; max_value_len := max_value_len;
     keys := []; values := [] |}.

Definition add_entry (string_key string_value : str) : M state unit :=
  s ← gets id;
  key ← lift (share_matrix <$> string2one_hot_matrix string_key (max_key_len s));
  value ← lift (share <$> string2values string_value (max_value_len s));
  modify (λ s, {| max_key_len := max_key_len s;
                  max_value_len := max_value_len s;
                  keys := keys s ++ [key]; values := values s |});;
  modify (λ s, {| max_key_len := max_key_len s;
                  max_value_len := max_value_len s;
                  keys := keys s; values := values s ++ [value] |}).

(** [(key * query).sum(1)]: the product of two matrices of one shape,
    entry by entry, then the sum of each row. *)
Definition row_sum (row : tensor) : Z :=
  fold_left (λ acc x, norm (acc + x)) row 0.

Definition dots (key query : matrix) : result tensor :=
  if decide (length key = length query)
  then mapM (λ rr, row_sum <$> tmul rr.1 rr.2) (zip key query)
  else Raise RuntimeError.

(** [[
    vect = (key * query).sum(1)
    x = vect[0]
    for i in range(vect.get_shape()[0]):
        x = x * vect[i]
    key_match.append(x)
    ]] *)
Definition key_match (query key : matrix) : result tensor :=
  vect ← dots key query;
  x0 ← of_option IndexError (vect !! 0%nat);
  x ← foldM (λ x i, vi ← of_option IndexError (vect !! i);
                    mret (norm (x * vi)))
            x0 (seq 0 (length vect));
  mret [x].

(** The lines of [query] down to the sum, on the fields as read. *)
Definition final_value (s : state) (query_str : str) : result tensor :=
  query ← share_matrix <$> string2one_hot_matrix query_str (max_key_len s);
  select (key_match query) IndexError (keys s) (values s).

(** Section 7 reports no randomness and does not retry: [.get()]
    is taken to reveal the aggregate as it is. *)
Definition query (query_str : str) : M state str :=
  s ← gets id;
  final_value ← lift (final_value s query_str);
  mret (remove_dots (values2string final_value)).

End WithField.
End OneHotDB.

(** * Filling a database

    The cells that follow each class: a run of [db.add_entry(k, v)]
    calls, which stops at the first one that raises. *)

Fixpoint add_entries {S} (add_entry : str → str → M S unit)
    (entries : list (str * str)) : M S unit :=
  match entries with
  | [] => mret ()
  | e :: entries' => add_entry e.1 e.2;; add_entries add_entry entries'
  end.

(** * The round trip the specification asks for

    Stated from the specification's words: a string cut to [n]
    characters, or filled up to [n] with the pad symbol. *)
Definition pad_or_truncate (s : str) (n : nat) : str :=
  take n s ++ replicate (n - length s) dot.

(** The substrate that reveals exactly what the arithmetic gives. *)
Definition exact_get : nat → tensor → tensor := λ _ t, t.

(** * Sample parameters

    The field of the secret-sharing library, [2 ** 31 - 1], and a
    stand-in for the interpreter's salted [hash]; the examples below are
    evaluated with them. *)
Definition securenn_field : Z := 2 ^ 31 - 1.

Definition sample_hash (s : str) : Z :=
  fold_left (λ h c, (1000003 * h + Z.of_N (N_of_ascii c)) `mod` 2 ^ 61) s 0.

Definition tab : ascii := "009"%char.

(** A substrate whose first run garbles every non-zero entry of the
    aggregate and whose later runs are exact, and two orders in which a
    character set may be listed: by first occurrence, and by last
    occurrence ([remove_dups]). *)
Definition garbled_once : nat → tensor → tensor := λ n t,
  match n with
  | O => (λ x, if decide (x = 0) then 0 else -1) <$> t
  | S _ => t
  end.

Definition first_seen (r : str) : list ascii :=
  reverse (remove_dups (reverse r)).

(** * Sample stores *)

(** The store of the notebook's Section 5. *)
Definition phone_book : TensorDB.state :=
  (add_entries (TensorDB.add_entry sample_hash securenn_field)
     [(py "Bob", py "(123) 456-7890");
      (py "Bill", py "(234) 567-8901");
      (py "Sue", py "(345) 678-9012")]
     TensorDB.init).2.

(** The same key added twice. *)
Definition tensor_twice : TensorDB.state :=
  (add_entries (TensorDB.add_entry sample_hash securenn_field)
     [(py "Bob", py "ab"); (py "Bob", py "cd")]
     TensorDB.init).2.

Definition one_hot_twice : OneHotDB.state :=
  (add_entries (OneHotDB.add_entry securenn_field)
     [(py "Bob", py "ab"); (py "bob", py "cd")]
     (OneHotDB.init 3 4)).2.

(** The store of the notebook's Section 7, with narrower values. *)
Definition one_hot_book : OneHotDB.state :=
  (add_entries (OneHotDB.add_entry securenn_field)
     [(py "Bob", py "(123) 456 7890");
      (py "Bill", py "(234) 567 8901");
      (py "Key", py "Really Big value.")]
     (OneHotDB.init 3 20)).2.

(** The store of the notebook's Section 6. *)
Definition shared_book : HashedDB.state :=
  (add_entries (HashedDB.add_entry sample_hash securenn_field)
     [(py "Bob", py "(123) 456-7890");
      (py "Bill", py "(234) 567-8901");
      (py "Sam", py "(345) 678-9012")]
     HashedDB.init).2.

(** A shared store whose one value is made of full stops. *)
Definition shared_dots : HashedDB.state :=
  (add_entries (HashedDB.add_entry sample_hash securenn_field)
     [(py "Bob", py "...")]
     HashedDB.init).2.

(** * Vocabulary of the statements *)

(** A match as the integer the arithmetic works with. *)
Definition bit (b : bool) : Z := if b then 1 else 0.

(** A value multiplied by its broadcast match. *)
Definition masked (b : bool) (v : tensor) : tensor :=
  if b then v else replicate (length v) 0.

(** The records stored under the encoded key [q]. *)
Definition is_key {K} `{EqDecision K} (q : K) : K → bool :=
  λ k, bool_decide (k = q).

(** Entries that the representation leaves as they are. *)
Definition normal `{Arith} (v : tensor) : Prop := Forall (λ x, norm x = x) v.

(** What the filling loop keeps true: codes are below the running
    index and every code decodes to its character. *)
Definition tables_ok (n : nat) (t : tables) : Prop :=
  ∀ c i, char2int t !! c = Some i →
         0 ≤ i < Z.of_nat n ∧ int2char t !! i = Some c.

(** The row with a single 1, at index [j]. *)
Definition hot (j n : nat) : tensor := <[j := 1]> (replicate n 0).

(** The sum of a row, from a running total. *)
Definition row_sum_from `{Arith} (acc : Z) (row : tensor) : Z :=
  fold_left (λ acc x, norm (acc + x)) row acc.

(** The position of a character in the alphabet of Section 7. *)
Definition index_of (c : ascii) : nat :=
  Z.to_nat (default 0 (char2int OneHotDB.T !! c)).

(** The matrix whose rows are the one-hot codes of a string. *)
Definition rows (s : str) : matrix := (λ c, hot (index_of c) 69) <$> s.

(** Whether two characters are the same. *)
Definition same (cc : ascii * ascii) : bool := bool_decide (cc.1 = cc.2).

(** The state after a run of successful [add_entry] calls. *)
Definition onehot_filled (es : list (str * str)) (ts : list tensor)
    (s0 s : OneHotDB.state) : Prop :=
  OneHotDB.max_key_len s = OneHotDB.max_key_len s0
  ∧ OneHotDB.max_value_len s = OneHotDB.max_value_len s0
  ∧ OneHotDB.keys s
    = OneHotDB.keys s0
      ++ ((λ k, rows (OneHotDB.truncate_pad k (OneHotDB.max_key_len s0)))
          <$> es.*1)
  ∧ OneHotDB.values s = OneHotDB.values s0 ++ ts
  ∧ Forall (λ k, Forall (λ c, c ∈ alphabet_lowercase)
                   (OneHotDB.truncate_pad k (OneHotDB.max_key_len s0)))
           es.*1
  ∧ Forall2 (λ v t, OneHotDB.string2values v (OneHotDB.max_value_len s0)
                    = Ok t) es.*2 ts
  ∧ (es ≠ [] → (0 < OneHotDB.max_key_len s0)%nat).


(** * Properties *)

(** The filled tables are used through their lemmas and by evaluation. *)
Global Opaque TensorDB.T HashedDB.T OneHotDB.T.

(** ** Loops that may raise *)

Section Loops.

Context {A B : Type}.
Implicit Types (f : A → result B) (l : list A).

Lemma mapM_cons f x l :
  mapM f (x :: l) = y ← f x; ys ← mapM f l; mret (y :: ys).
Proof. done. Qed.

Lemma mapM_fmap f (g : A → B) l :
  (∀ x, x ∈ l → f x = Ok (g x)) → mapM f l = Ok (g <$> l).
Proof.
  induction l as [|x l IH]; intros Hf; simpl; [done|].
  rewrite Hf by apply list_elem_of_here.
  rewrite IH; [done|]. intros y Hy. apply Hf. by apply list_elem_of_further.
Qed.

Lemma mapM_length f l (l' : list B) : mapM f l = Ok l' → length l' = length l.
Proof.
  revert l'. induction l as [|x l IH]; intros l'; simpl.
  - by intros [= <-].
  - destruct (f x); [|done]. destruct (mapM f l); [|done].
    intros [= <-]. simpl. f_equal. by apply IH.
Qed.

Lemma mapM_lookup f l (l' : list B) i x :
  mapM f l = Ok l' → l !! i = Some x → ∃ y, f x = Ok y ∧ l' !! i = Some y.
Proof.
  revert l' i. induction l as [|a l IH]; intros l' i; simpl; [done|].
  destruct (f a) as [b|] eqn:Hfa; [|done].
  destruct (mapM f l) as [bs|]; [|done]. intros [= <-].
  destruct i as [|i]; simpl.
  - intros [= ->]. eauto.
  - intros Hl. by apply IH.
Qed.

Lemma mapM_raise f l x e :
  x ∈ l → (∀ y, y ∈ l → f y = Raise e ∨ ∃ b, f y = Ok b) → f x = Raise e →
  mapM f l = Raise e.
Proof.
  induction l as [|a l IH]; intros Hx Hall Hfx; [by apply elem_of_nil in Hx|].
  simpl. destruct (Hall a) as [->|[b Hb]]; [apply list_elem_of_here|done|].
  rewrite Hb. apply elem_of_cons in Hx as [->|Hx]; [congruence|].
  rewrite IH; [done..| |done].
  intros y Hy. apply Hall. by apply list_elem_of_further.
Qed.

End Loops.

(** ** Table lemmas *)

Section Tables.

Implicit Types (t : tables) (l : str) (c : ascii) (i : Z).

Lemma fill_ok n t c : tables_ok n t → tables_ok (S n) (fill t (n, c)).
Proof.
  intros Hc c' i. simpl. rewrite lookup_insert. case_decide as Hcc.
  - intros [= <-]. subst c'. split; [lia|]. by rewrite lookup_insert_eq.
  - intros Hl. destruct (Hc _ _ Hl) as [Hlt Hdec]. split; [lia|].
    rewrite lookup_insert_ne; [done|lia].
Qed.

Lemma fold_fill_ok l : ∀ n t,
  tables_ok n t →
  tables_ok (n + length l) (fold_left fill (enumerate_from n l) t).
Proof.
  induction l as [|c l IH]; intros n t Hok; simpl.
  - by rewrite Nat.add_0_r.
  - replace (n + S (length l))%nat with (S n + length l)%nat by lia.
    apply IH. by apply fill_ok.
Qed.

Lemma make_tables_ok l : tables_ok (length l) (make_tables l).
Proof.
  apply (fold_fill_ok l 0). intros ??; simpl. by rewrite lookup_empty.
Qed.

(** Decoding a character's code gives the character back. *)
Lemma char2int_int2char l c i :
  char2int (make_tables l) !! c = Some i →
  int2char (make_tables l) !! i = Some c.
Proof. intros H. by destruct (make_tables_ok l _ _ H). Qed.

Lemma char2int_lt l c i :
  char2int (make_tables l) !! c = Some i → 0 ≤ i < Z.of_nat (length l).
Proof. intros H. by destruct (make_tables_ok l _ _ H). Qed.

Lemma fold_fill_dom l : ∀ n t c,
  is_Some (char2int (fold_left fill (enumerate_from n l) t) !! c)
  ↔ is_Some (char2int t !! c) ∨ c ∈ l.
Proof.
  induction l as [|a l IH]; intros n t c; simpl.
  - rewrite elem_of_nil. tauto.
  - rewrite IH, elem_of_cons. simpl. rewrite lookup_insert.
    case_decide as Hac.
    + subst a. split; [intros _; by right; left|intros _; by left].
    + split; intros [H|H]; auto.
      destruct H as [H|H]; [congruence|auto].
Qed.

(** The characters with a code are those of the alphabet. *)
Lemma char2int_dom l c : is_Some (char2int (make_tables l) !! c) ↔ c ∈ l.
Proof.
  unfold make_tables, enumerate. rewrite fold_fill_dom. simpl.
  rewrite lookup_empty. split; [intros [[? [=]]|]; done|auto].
Qed.

Lemma fold_fill_int2char l : ∀ n t i c,
  int2char (fold_left fill (enumerate_from n l) t) !! i = Some c →
  int2char t !! i = Some c
  ∨ ∃ j, i = Z.of_nat (n + j) ∧ l !! j = Some c.
Proof.
  induction l as [|a l IH]; intros n t i c; simpl; [auto|].
  intros H. apply IH in H as [H|(j & -> & Hj)].
  - simpl in H. rewrite lookup_insert in H. case_decide as Hni.
    + injection H as ->. right. exists 0%nat.
      split; [by rewrite Nat.add_0_r|done].
    + by left.
  - right. exists (S j). split; [f_equal; lia|done].
Qed.

(** A character's code is its position in the alphabet. *)
Lemma char2int_position l c i :
  char2int (make_tables l) !! c = Some i →
  ∃ j, i = Z.of_nat j ∧ l !! j = Some c.
Proof.
  intros H. apply char2int_int2char in H.
  apply fold_fill_int2char in H as [H|(j & -> & Hj)]; [|eauto].
  simpl in H. by rewrite lookup_empty in H.
Qed.

(** Encoding a string with [char2int], then decoding with [int2char]. *)
Lemma encode_decode l (s : str) (v : tensor) :
  mapM (λ char, of_option KeyError (char2int (make_tables l) !! char)) s
  = Ok v →
  length v = length s
  ∧ Forall (λ x, 0 ≤ x < Z.of_nat (length l)) v
  ∧ mapM (λ x, of_option KeyError (int2char (make_tables l) !! x)) v = Ok s
  ∧ values2string_sentinel (make_tables l) v = s.
Proof.
  revert v. induction s as [|c s IH]; intros v; simpl.
  - by intros [= <-].
  - destruct (char2int (make_tables l) !! c) as [i|] eqn:Hc; [|done]. simpl.
    destruct (mapM _ s) as [v'|]; [|done]. intros [= <-].
    destruct (IH v' eq_refl) as (Hl & Hb & Hd & Hs).
    pose proof (char2int_int2char _ _ _ Hc) as Hi.
    pose proof (char2int_lt _ _ _ Hc) as Hlt.
    repeat split; simpl.
    + by f_equal.
    + by constructor.
    + by rewrite Hi, Hd.
    + unfold values2string_sentinel in *. simpl. by rewrite Hi, Hs.
Qed.

Lemma encode_total l (s : str) :
  Forall (λ c, c ∈ l) s →
  ∃ v, mapM (λ char, of_option KeyError (char2int (make_tables l) !! char)) s
       = Ok v.
Proof.
  induction 1 as [|c s Hc _ [v IH]]; simpl; [by eexists|].
  apply char2int_dom in Hc as [i Hi]. rewrite Hi, IH. simpl. by eexists.
Qed.

Lemma encode_raise l (s : str) c :
  c ∈ s → c ∉ l →
  mapM (λ char, of_option KeyError (char2int (make_tables l) !! char)) s
  = Raise KeyError.
Proof.
  intros Hcs Hcl. apply (mapM_raise _ _ c); [done| |].
  - intros y _. destruct (char2int _ !! y); simpl; eauto.
  - destruct (char2int _ !! c) eqn:Hc; [|done].
    exfalso. apply Hcl, char2int_dom. by eexists.
Qed.

End Tables.


(** ** Arithmetic of the two representations *)

Lemma int64_laws : ArithLaws int64_arith.
Proof.
  split; simpl; unfold wrap64; intros z.
  - replace ((z + 2 ^ 63) `mod` 2 ^ 64 - 2 ^ 63 + 2 ^ 63)
      with ((z + 2 ^ 63) `mod` 2 ^ 64) by lia.
    by rewrite Zmod_mod.
  - intros Hz. rewrite Z.mod_small; lia.
Qed.

Lemma field_laws (FIELD : Z) : 256 ≤ FIELD → ArithLaws (field_arith FIELD).
Proof.
  intros HF. split; simpl; intros z.
  - by rewrite Zmod_mod.
  - intros Hz. rewrite Z.mod_small; lia.
Qed.

(** ** Masking and aggregation *)

Section Aggregation.

Context {A : Arith} {AL : ArithLaws A}.

Lemma pointwise_same f (a b : tensor) :
  length a = length b → pointwise f a b = Ok (zip_with f a b).
Proof. intros Hl. unfold pointwise. by rewrite decide_True. Qed.

Lemma small_normal v : Forall small v → normal v.
Proof.
  intros Hv. eapply Forall_impl; [done|]. intros x Hx. by apply norm_small.
Qed.

Lemma zeros_normal n : normal (replicate n 0).
Proof. apply Forall_replicate. by apply norm_small. Qed.

Lemma zadd_normal a b : normal (zadd a b).
Proof.
  unfold normal, zadd. revert b.
  induction a as [|x a IH]; intros [|y b]; simpl; constructor.
  - apply norm_idem.
  - apply IH.
Qed.

Lemma length_zadd a b : length a = length b → length (zadd a b) = length a.
Proof. intros Hl. unfold zadd. rewrite length_zip_with. lia. Qed.

Lemma zadd_zeros_r a : normal a → zadd a (replicate (length a) 0) = a.
Proof.
  unfold zadd. induction 1 as [|x a Hx _ IH]; simpl; [done|].
  rewrite Z.add_0_r, Hx. by f_equal.
Qed.

Lemma zadd_zeros_l a : normal a → zadd (replicate (length a) 0) a = a.
Proof.
  unfold zadd. induction 1 as [|x a Hx _ IH]; simpl; [done|].
  rewrite Z.add_0_l, Hx. by f_equal.
Qed.

(** A 0-or-1 match broadcast over a value and multiplied into it. *)
Lemma expand_tmul e b v :
  v ≠ [] → Forall small v →
  (expand e [bit b] (length v) ≫= λ ek, tmul ek v) = Ok (masked b v).
Proof.
  intros Hne Hv.
  assert (expand e [bit b] (length v)
          = Ok (replicate (length v) (bit b))) as ->.
  { by destruct v. }
  change (tmul (replicate (length v) (bit b)) v = Ok (masked b v)).
  unfold tmul. rewrite pointwise_same by by rewrite length_replicate.
  f_equal. rewrite zip_with_replicate_l by done.
  destruct b; simpl.
  - clear Hne. induction Hv as [|y v Hy _ IH]; simpl; [done|].
    rewrite Z.mul_1_l, norm_small by done. by f_equal.
  - clear Hne Hv. induction v as [|y v IH]; simpl; [done|].
    rewrite Z.mul_0_l. f_equal; [|done]. by apply norm_small.
Qed.

Lemma mask_lookup e key_match i b v :
  key_match !! i = Some [bit b] → v ≠ [] → Forall small v →
  mask e key_match (i, v) = Ok (masked b v).
Proof.
  intros Hi Hne Hv. unfold mask. simpl. rewrite Hi. simpl.
  by apply expand_tmul.
Qed.

Section Select.

Context {K : Type}.
Variable key_matches : K → result tensor.
Variable shape_exn : exn.
Variable matched : K → bool.

Lemma mapM_mask key_match vs : ∀ n ks,
  drop n key_match = (λ k, [bit (matched k)]) <$> ks →
  length ks = length vs →
  Forall (λ v, v ≠ [] ∧ Forall small v) vs →
  mapM (mask shape_exn key_match) (enumerate_from n vs)
  = Ok (zip_with (λ k v, masked (matched k) v) ks vs).
Proof.
  induction vs as [|v vs IH]; intros n ks Hd Hl Hvs.
  - by destruct ks.
  - destruct ks as [|k ks]; [done|].
    apply Forall_cons in Hvs as [[Hne Hv] Hvs].
    assert (key_match !! n = Some [bit (matched k)]) as Hn.
    { rewrite <-(Nat.add_0_r n), <-lookup_drop, Hd. done. }
    rewrite (drop_S _ _ _ Hn) in Hd. simpl in Hd.
    injection Hd as Hd. injection Hl as Hl.
    change (enumerate_from n (v :: vs))
      with ((n, v) :: enumerate_from (S n) vs).
    rewrite mapM_cons, (mask_lookup _ _ _ (matched k)) by done.
    by rewrite (IH (S n) ks).
Qed.

Lemma foldM_tadd ms : ∀ acc,
  Forall (λ m, length m = length acc) ms →
  foldM tadd acc ms = Ok (fold_left zadd ms acc).
Proof.
  induction ms as [|m ms IH]; intros acc Hms; simpl; [done|].
  apply Forall_cons in Hms as [Hm Hms].
  unfold tadd at 1. rewrite pointwise_same by done.
  apply IH. eapply Forall_impl; [done|]. intros m'. simpl.
  intros ->. symmetry. by apply length_zadd.
Qed.

Lemma fold_zadd_masked ks : ∀ vs acc,
  normal acc →
  Forall (λ v, length v = length acc) vs →
  fold_left zadd (zip_with (λ k v, masked (matched k) v) ks vs) acc
  = fold_left zadd (matching matched ks vs) acc.
Proof.
  induction ks as [|k ks IH]; intros vs acc Hacc Hvs; [done|].
  destruct vs as [|v vs]; [done|].
  apply Forall_cons in Hvs as [Hv Hvs]. simpl.
  destruct (matched k); simpl.
  - apply IH; [apply zadd_normal|].
    eapply Forall_impl; [done|]. intros v'. simpl.
    intros ->. symmetry. by apply length_zadd.
  - rewrite Hv, zadd_zeros_r by done. by apply IH.
Qed.

(** The aggregate is the sum, in the arithmetic of the
    representation, of the values whose key matches. *)
Lemma select_sum (L : nat) ks vs :
  (∀ k, k ∈ ks → key_matches k = Ok [bit (matched k)]) →
  length ks = length vs →
  vs ≠ [] →
  (0 < L)%nat →
  Forall (λ v, length v = L ∧ Forall small v) vs →
  select key_matches shape_exn ks vs
  = Ok (tsum L (matching matched ks vs)).
Proof.
  intros Hm Hl Hne HL Hvs. unfold select.
  rewrite (mapM_fmap _ (λ k, [bit (matched k)])) by done. simpl.
  unfold enumerate. rewrite (mapM_mask _ vs 0%nat ks); [|done..|].
  2:{ eapply Forall_impl; [done|]. intros v [Hv1 Hv2]. split; [|done].
      intros ->. simpl in Hv1. lia. }
  simpl. destruct vs as [|v vs]; [done|]. destruct ks as [|k ks]; [done|].
  apply Forall_cons in Hvs as [[Hv Hsm] Hvs]. simpl.
  assert (Forall (λ m, length m = L)
            (zip_with (λ k v, masked (matched k) v) ks vs)) as Hms.
  { clear -Hvs. revert ks. induction Hvs as [|v' vs [Hv' _] _ IH];
      intros [|k' ks]; simpl; constructor; [|by apply IH].
    unfold masked. destruct (matched k'); [done|].
    by rewrite length_replicate. }
  assert (length (masked (matched k) v) = L) as Hm0.
  { unfold masked. destruct (matched k); [done|].
    by rewrite length_replicate. }
  rewrite foldM_tadd by by rewrite Hm0.
  f_equal. unfold tsum.
  assert (Forall (λ v', length v' = L) vs) as Hvl.
  { eapply Forall_impl; [done|]. by intros ? []. }
  clear Hm Hm0 Hms. subst L. unfold masked at 2.
  destruct (matched k); simpl.
  - rewrite zadd_zeros_l by by apply small_normal.
    apply fold_zadd_masked; [by apply small_normal|done].
  - apply fold_zadd_masked; [apply zeros_normal|].
    by rewrite length_replicate.
Qed.

End Select.

End Aggregation.

(** ** Which records match *)

Section Matching.

Context {K : Type} `{EqDecision K}.
Implicit Types (ks : list K) (vs : list tensor) (q : K).

Lemma matching_none q ks vs : q ∉ ks → matching (is_key q) ks vs = [].
Proof.
  revert vs. induction ks as [|k ks IH]; intros vs Hq; [done|].
  destruct vs as [|v vs]; [done|]. simpl.
  apply not_elem_of_cons in Hq as [Hne Hq]. unfold is_key at 1.
  rewrite bool_decide_false by done. by apply IH.
Qed.

Lemma matching_unique q ks : ∀ vs i v,
  NoDup ks → ks !! i = Some q → vs !! i = Some v →
  matching (is_key q) ks vs = [v].
Proof.
  induction ks as [|k ks IH]; intros vs i v Hnd Hk Hv; [done|].
  destruct vs as [|v' vs]; [done|].
  apply NoDup_cons in Hnd as [Hnin Hnd]. simpl. unfold is_key at 1.
  destruct i as [|i]; simpl in Hk, Hv.
  - injection Hk as ->. injection Hv as ->.
    rewrite bool_decide_true by done. f_equal. by apply matching_none.
  - rewrite bool_decide_false.
    + by apply (IH vs i).
    + intros ->. apply Hnin. by eapply list_elem_of_lookup_2.
Qed.

Lemma matching_both q v1 v2 : matching (is_key q) [q; q] [v1; v2] = [v1; v2].
Proof. simpl. unfold is_key. by rewrite bool_decide_true. Qed.

End Matching.

Section Sums.

Context {A : Arith} {AL : ArithLaws A}.

Lemma tsum_nil L : tsum L [] = replicate L 0.
Proof. done. Qed.

Lemma tsum_one v : Forall small v → tsum (length v) [v] = v.
Proof. intros Hv. unfold tsum. simpl. by apply zadd_zeros_l, small_normal. Qed.

Lemma zip_add_small (v1 v2 : tensor) :
  Forall (λ x, 0 ≤ x < 128) v1 → Forall (λ x, 0 ≤ x < 128) v2 →
  zadd v1 v2 = zip_with Z.add v1 v2.
Proof.
  intros H1. revert v2. unfold zadd.
  induction H1 as [|x v1 Hx _ IH]; intros v2 H2; [done|].
  destruct H2 as [|y v2 Hy H2]; [done|]. simpl.
  rewrite norm_small by lia. f_equal. by apply IH.
Qed.

Lemma tsum_two v1 v2 :
  length v1 = length v2 →
  Forall (λ x, 0 ≤ x < 128) v1 → Forall (λ x, 0 ≤ x < 128) v2 →
  tsum (length v1) [v1; v2] = zip_with Z.add v1 v2.
Proof.
  intros Hl H1 H2. unfold tsum. simpl.
  rewrite zadd_zeros_l.
  - by apply zip_add_small.
  - apply small_normal. eapply Forall_impl; [done|]. unfold small. simpl. lia.
Qed.

End Sums.

(** ** Section 5: [TensorDB] *)

Section TensorDB_facts.

Variable hash : str → Z.
Variable field : Z.

Local Existing Instance int64_arith.
Local Existing Instance int64_laws.

Abbreviation string2key := (TensorDB.string2key hash field).
Abbreviation add_entry := (TensorDB.add_entry hash field).
Abbreviation query := (TensorDB.query hash field).
Abbreviation final_value := (TensorDB.final_value hash field).

Implicit Types (s : TensorDB.state) (es : list (str * str)).

Lemma tensordb_string2values_codes v t :
  TensorDB.string2values v = Ok t →
  length t = length v ∧ Forall (λ x, 0 ≤ x < 95) t
  ∧ TensorDB.values2string t = Ok v.
Proof.
  unfold TensorDB.string2values, TensorDB.values2string.
  change TensorDB.T with (make_tables alphabet_letters).
  intros Ht. by apply encode_decode in Ht as (Hl & Hb & Hd & _).
Qed.

Lemma tensordb_add_entry_ok k v t s :
  TensorDB.string2values v = Ok t →
  add_entry k v s
  = (Ok (), {| TensorDB.keys := TensorDB.keys s ++ [string2key k];
               TensorDB.values := TensorDB.values s ++ [t] |}).
Proof.
  intros Hv. unfold TensorDB.add_entry, mbind, M_bind, modify, lift.
  by rewrite Hv.
Qed.

(** A value that cannot be encoded leaves its key behind. *)
Lemma tensordb_add_entry_raise k v e s :
  TensorDB.string2values v = Raise e →
  add_entry k v s
  = (Raise e, {| TensorDB.keys := TensorDB.keys s ++ [string2key k];
                 TensorDB.values := TensorDB.values s |}).
Proof.
  intros Hv. unfold TensorDB.add_entry, mbind, M_bind, modify, lift.
  by rewrite Hv.
Qed.

Lemma tensordb_add_entries es : ∀ s0 s,
  add_entries add_entry es s0 = (Ok (), s) →
  ∃ ts, mapM TensorDB.string2values es.*2 = Ok ts
        ∧ TensorDB.keys s = TensorDB.keys s0 ++ (string2key <$> es.*1)
        ∧ TensorDB.values s = TensorDB.values s0 ++ ts.
Proof.
  induction es as [|[k v] es IH]; intros s0 s; simpl.
  - intros [= <-]. exists []. by rewrite !app_nil_r.
  - unfold mbind at 1, M_bind at 1.
    destruct (TensorDB.string2values v) as [t|e] eqn:Hv.
    + rewrite (tensordb_add_entry_ok _ _ t) by done. intros Hrest.
      apply IH in Hrest as (ts & Hts & Hk & Hvs). simpl in Hk, Hvs.
      exists (t :: ts). split; [|split].
      * change (list_fmap _ _ snd es) with (es.*2). by rewrite Hts.
      * rewrite Hk. simpl. by rewrite <-app_assoc.
      * rewrite Hvs. simpl. by rewrite <-app_assoc.
    + by rewrite (tensordb_add_entry_raise _ _ e).
Qed.

Lemma tensordb_query_run q s :
  query q s = (final_value s q ≫= TensorDB.values2string, s).
Proof.
  unfold TensorDB.query, mbind at 1 2, M_bind, gets, lift. simpl.
  by destruct (final_value s q).
Qed.

Lemma tensordb_teq (k q : str) :
  teq (string2key k) (string2key q)
  = Ok [bit (is_key (string2key q) (string2key k))].
Proof.
  unfold teq, TensorDB.string2key, pointwise, is_key. simpl.
  do 2 f_equal. case_decide as Hd.
  - by rewrite Hd, bool_decide_true.
  - rewrite bool_decide_false; [done|]. by intros [= ?].
Qed.

(** The aggregate of a filled store: the values under the queried
    key, summed. *)
Lemma tensordb_final_value es s (L : nat) q :
  add_entries add_entry es TensorDB.init = (Ok (), s) →
  es ≠ [] → (0 < L)%nat →
  (∀ e, e ∈ es → length e.2 = L) →
  final_value s q
  = Ok (tsum L (matching (is_key (string2key q))
                         (TensorDB.keys s) (TensorDB.values s))).
Proof.
  intros Hs Hne HL Hlen.
  apply tensordb_add_entries in Hs as (ts & Hts & Hk & Hv).
  simpl in Hk, Hv. unfold TensorDB.final_value. rewrite Hk, Hv.
  pose proof (mapM_length _ _ _ Hts) as Hlts.
  rewrite length_fmap in Hlts.
  apply select_sum; [| | |done|].
  - intros k' Hk'. apply list_elem_of_fmap in Hk' as (k0 & -> & _).
    apply tensordb_teq.
  - by rewrite !length_fmap.
  - intros ->. by destruct es.
  - apply Forall_lookup. intros i t Hi.
    destruct (lookup_lt_is_Some_2 es.*2 i) as [v Hvi].
    { rewrite length_fmap, <-Hlts. by eapply lookup_lt_Some. }
    destruct (mapM_lookup _ _ _ _ _ Hts Hvi) as (t' & Ht' & Hti).
    rewrite Hi in Hti. injection Hti as <-.
    destruct (tensordb_string2values_codes _ _ Ht') as (Hl & Hb & _).
    apply list_lookup_fmap_Some in Hvi as (e & -> & He).
    split.
    + rewrite Hl. apply Hlen. by eapply list_elem_of_lookup_2.
    + eapply Forall_impl; [done|]. unfold small. simpl. lia.
Qed.

End TensorDB_facts.

(** ** One-hot rows and their products *)

Section OneHotRows.

Context {A : Arith} {AL : ArithLaws A}.

Lemma length_hot j n : length (hot j n) = n.
Proof. unfold hot. by rewrite length_insert, length_replicate. Qed.

Lemma hot_inj j j' n : (j < n)%nat → hot j n = hot j' n → j = j'.
Proof.
  intros Hj Heq. destruct (decide (j = j')) as [|Hne]; [done|].
  assert (hot j n !! j = hot j' n !! j) as Hl by by rewrite Heq.
  unfold hot in Hl.
  rewrite list_lookup_insert_eq in Hl by by rewrite length_replicate.
  rewrite list_lookup_insert_ne, lookup_replicate_2 in Hl by done.
  done.
Qed.

Lemma share_hot j n : share (hot j n) = hot j n.
Proof.
  unfold share, hot. rewrite list_fmap_insert, fmap_replicate.
  by rewrite !norm_small by done.
Qed.

Lemma row_sum_zeros n acc :
  small acc → row_sum_from acc (replicate n 0) = acc.
Proof.
  intros Hacc. unfold row_sum_from.
  induction n as [|n IH]; simpl; [done|].
  by rewrite Z.add_0_r, norm_small.
Qed.

Lemma row_sum_hot n : ∀ j, (j < n)%nat → row_sum_from 0 (hot j n) = 1.
Proof.
  unfold hot. induction n as [|n IH]; intros j Hj; [lia|].
  destruct j as [|j]; simpl.
  - rewrite Z.add_0_l, norm_small by done. by apply row_sum_zeros.
  - rewrite Z.add_0_r, norm_small by done. apply IH. lia.
Qed.

Lemma mul_zero_l (l : tensor) :
  (λ y, norm (0 * y)) <$> l = replicate (length l) 0.
Proof.
  induction l as [|y l IH]; simpl; [done|].
  rewrite Z.mul_0_l, norm_small by done. by f_equal.
Qed.

Lemma mul_zero_r (l : tensor) :
  (λ x, norm (x * 0)) <$> l = replicate (length l) 0.
Proof.
  induction l as [|y l IH]; simpl; [done|].
  rewrite Z.mul_0_r, norm_small by done. by f_equal.
Qed.

Lemma mul_hot n : ∀ j j',
  zip_with (λ x y, norm (x * y)) (hot j n) (hot j' n)
  = if decide (j = j') then hot j n else replicate n 0.
Proof.
  unfold hot. induction n as [|n IH]; intros j j'.
  - simpl. by case_decide.
  - destruct j as [|j], j' as [|j']; simpl.
    + rewrite Z.mul_1_l, norm_small by done. f_equal.
      rewrite zip_with_replicate_l by by rewrite length_replicate.
      rewrite fmap_replicate. by rewrite Z.mul_0_l, norm_small.
    + rewrite Z.mul_1_l, norm_small by done. f_equal.
      rewrite zip_with_replicate_l
        by by rewrite length_insert, length_replicate.
      by rewrite mul_zero_l, length_insert, length_replicate.
    + rewrite Z.mul_0_l, norm_small by done. f_equal.
      rewrite zip_with_replicate_r
        by by rewrite length_insert, length_replicate.
      by rewrite mul_zero_r, length_insert, length_replicate.
    + rewrite Z.mul_0_l, norm_small by done. rewrite IH.
      destruct (decide (j = j')) as [->|Hne].
      * by rewrite decide_True.
      * rewrite decide_False by lia. done.
Qed.

(** The dot product of two one-hot rows is 1 on equal indices and 0
    otherwise. *)
Lemma dot_hot j j' n :
  (j < n)%nat →
  row_sum_from 0 <$> tmul (hot j n) (hot j' n)
  = Ok (bit (bool_decide (j = j'))).
Proof.
  intros Hj. unfold tmul.
  rewrite pointwise_same by by rewrite !length_hot.
  simpl. f_equal. rewrite mul_hot. case_decide as Hd.
  - rewrite bool_decide_true by done. by apply row_sum_hot.
  - rewrite bool_decide_false by done. by apply row_sum_zeros.
Qed.

(** Multiplying 0-or-1 entries one after the other. *)
Lemma fold_mul_bits (flags : list bool) : ∀ f0 : bool,
  fold_left (λ x v, norm (x * v)) (bit <$> flags) (bit f0)
  = bit (f0 && forallb id flags).
Proof.
  induction flags as [|f flags IH]; intros f0; simpl.
  - by rewrite andb_true_r.
  - replace (norm (bit f0 * bit f)) with (bit (f0 && f)).
    + rewrite IH. by rewrite andb_assoc.
    + destruct f0, f; simpl; by rewrite norm_small.
Qed.

Lemma foldM_lookup (vect : tensor) : ∀ pre x,
  foldM (λ x i, vi ← of_option IndexError ((pre ++ vect) !! i);
                mret (norm (x * vi)))
        x (seq (length pre) (length vect))
  = Ok (fold_left (λ x v, norm (x * v)) vect x).
Proof.
  induction vect as [|v vect IH]; intros pre x; [done|].
  cbn [length seq foldM].
  rewrite lookup_app_r, Nat.sub_diag by done. cbn.
  specialize (IH (pre ++ [v]) (norm (x * v))).
  rewrite <-app_assoc, length_app, Nat.add_1_r in IH. apply IH.
Qed.

End OneHotRows.

(** ** Section 7: the fixed-length encoders *)

Section Encoders.

Implicit Types (s : str) (n : nat).

Lemma length_lower s : length (lower s) = length s.
Proof. unfold lower. by rewrite length_fmap. Qed.

Lemma lower_take s n : lower (take n s) = take n (lower s).
Proof. unfold lower. by rewrite fmap_take. Qed.

(** The encoders cut and pad the lowercased string. *)
Lemma truncate_pad_spec s n :
  OneHotDB.truncate_pad s n = pad_or_truncate (lower s) n.
Proof.
  unfold OneHotDB.truncate_pad, pad_or_truncate.
  rewrite lower_take, length_take, length_lower. case_decide as Hlt.
  - f_equal. f_equal. lia.
  - replace (n - length s)%nat with 0%nat by lia. simpl.
    by rewrite app_nil_r.
Qed.

Lemma length_pad_or_truncate s n : length (pad_or_truncate s n) = n.
Proof.
  unfold pad_or_truncate.
  rewrite length_app, length_take, length_replicate. lia.
Qed.

Lemma length_truncate_pad s n : length (OneHotDB.truncate_pad s n) = n.
Proof. by rewrite truncate_pad_spec, length_pad_or_truncate. Qed.

Lemma alphabet_lowercase_size : size (int2char OneHotDB.T) = 69%nat.
Proof. by vm_compute. Qed.

Lemma index_of_lookup c :
  c ∈ alphabet_lowercase →
  char2int OneHotDB.T !! c = Some (Z.of_nat (index_of c))
  ∧ alphabet_lowercase !! index_of c = Some c.
Proof.
  intros Hc. apply char2int_dom in Hc as [i Hi].
  destruct (char2int_position _ _ _ Hi) as (j & -> & Hj).
  unfold index_of. change OneHotDB.T with (make_tables alphabet_lowercase).
  rewrite Hi. simpl. by rewrite Nat2Z.id.
Qed.

Lemma index_of_lt c : c ∈ alphabet_lowercase → (index_of c < 69)%nat.
Proof.
  intros Hc. destruct (index_of_lookup c Hc) as [_ Hl].
  by apply lookup_lt_Some in Hl.
Qed.

Lemma index_of_inj c c' :
  c ∈ alphabet_lowercase → c' ∈ alphabet_lowercase →
  index_of c = index_of c' → c = c'.
Proof.
  intros Hc Hc' Heq.
  destruct (index_of_lookup c Hc) as [_ Hl].
  destruct (index_of_lookup c' Hc') as [_ Hl'].
  rewrite Heq in Hl. congruence.
Qed.

Lemma rows_inj s s' :
  Forall (λ c, c ∈ alphabet_lowercase) s →
  Forall (λ c, c ∈ alphabet_lowercase) s' →
  rows s = rows s' → s = s'.
Proof.
  intros Hs. revert s'. unfold rows.
  induction Hs as [|c s Hc _ IH]; intros s' Hs' Heq.
  - by destruct s'.
  - destruct Hs' as [|c' s' Hc' Hs']; [done|]. simpl in Heq.
    injection Heq as Hrow Hrest.
    apply hot_inj in Hrow; [|by apply index_of_lt].
    f_equal; [by apply index_of_inj|by apply IH].
Qed.

Lemma one_hot_rows s :
  Forall (λ c, c ∈ alphabet_lowercase) s →
  mapM (λ char, index ← of_option KeyError (char2int OneHotDB.T !! char);
                OneHotDB.one_hot index (size (int2char OneHotDB.T))) s
  = Ok (rows s).
Proof.
  intros Hs. apply mapM_fmap. intros c Hc.
  rewrite Forall_forall in Hs. specialize (Hs c Hc).
  destruct (index_of_lookup c Hs) as [-> _]. simpl.
  rewrite alphabet_lowercase_size. unfold OneHotDB.one_hot.
  pose proof (index_of_lt c Hs).
  rewrite decide_True by lia. by rewrite Nat2Z.id.
Qed.

(** [string2one_hot_matrix] returns exactly when the string it
    encodes is over the alphabet and at least one row is asked for. *)
Lemma string2one_hot_matrix_ok s n :
  (0 < n)%nat →
  Forall (λ c, c ∈ alphabet_lowercase) (OneHotDB.truncate_pad s n) →
  OneHotDB.string2one_hot_matrix s n = Ok (rows (OneHotDB.truncate_pad s n)).
Proof.
  intros Hn Hs. unfold OneHotDB.string2one_hot_matrix.
  rewrite one_hot_rows by done. simpl.
  pose proof (length_truncate_pad s n) as Hl.
  destruct (OneHotDB.truncate_pad s n); [simpl in Hl; lia|done].
Qed.

Lemma string2one_hot_matrix_inv s n m :
  OneHotDB.string2one_hot_matrix s n = Ok m →
  (0 < n)%nat
  ∧ Forall (λ c, c ∈ alphabet_lowercase) (OneHotDB.truncate_pad s n)
  ∧ m = rows (OneHotDB.truncate_pad s n).
Proof.
  intros Hm.
  assert (Forall (λ c, c ∈ alphabet_lowercase) (OneHotDB.truncate_pad s n))
    as Hs.
  { apply Forall_forall. intros c Hc.
    unfold OneHotDB.string2one_hot_matrix in Hm.
    destruct (mapM _ (OneHotDB.truncate_pad s n)) as [cv|] eqn:Hcv; [|done].
    apply list_elem_of_lookup in Hc as [i Hi].
    destruct (mapM_lookup _ _ _ _ _ Hcv Hi) as (y & Hy & _).
    apply char2int_dom.
    change (make_tables alphabet_lowercase) with OneHotDB.T.
    by destruct (char2int OneHotDB.T !! c). }
  assert (0 < n)%nat as Hn.
  { destruct n; [|lia]. by vm_compute in Hm. }
  by rewrite string2one_hot_matrix_ok in Hm by done; injection Hm as <-.
Qed.

(** The pad symbol is in the alphabet, so a string whose kept part is
    over the alphabet stays so once padded. *)
Lemma truncate_pad_alphabet s n :
  Forall (λ c, c ∈ alphabet_lowercase) (lower (take n s)) →
  Forall (λ c, c ∈ alphabet_lowercase) (OneHotDB.truncate_pad s n).
Proof.
  intros Hs. unfold OneHotDB.truncate_pad. case_decide; [|done].
  apply Forall_app. split; [done|].
  apply Forall_replicate. apply (bool_decide_unpack _). by vm_compute.
Qed.

(** A character outside the alphabet, among those kept, makes both
    encoders raise. *)
Lemma truncate_pad_outside s n :
  ¬ Forall (λ c, c ∈ alphabet_lowercase) (lower (take n s)) →
  ∃ c, c ∈ OneHotDB.truncate_pad s n ∧ c ∉ alphabet_lowercase.
Proof.
  intros Hs. apply not_Forall_Exists in Hs; [|apply _].
  apply Exists_exists in Hs as (c & Hc & Hout). exists c. split; [|done].
  unfold OneHotDB.truncate_pad. case_decide; [|done].
  apply elem_of_app. by left.
Qed.

Lemma string2values_raises s n :
  ¬ Forall (λ c, c ∈ alphabet_lowercase) (lower (take n s)) →
  OneHotDB.string2values s n = Raise KeyError.
Proof.
  intros Hs. destruct (truncate_pad_outside s n Hs) as (c & Hc & Hout).
  unfold OneHotDB.string2values.
  change OneHotDB.T with (make_tables alphabet_lowercase).
  by apply (encode_raise _ _ c).
Qed.

Lemma string2one_hot_matrix_raises s n :
  ¬ Forall (λ c, c ∈ alphabet_lowercase) (lower (take n s)) →
  OneHotDB.string2one_hot_matrix s n = Raise KeyError.
Proof.
  intros Hs. destruct (truncate_pad_outside s n Hs) as (c & Hc & Hout).
  unfold OneHotDB.string2one_hot_matrix.
  rewrite (mapM_raise _ _ c KeyError); [done|done| |].
  - intros y _. destruct (char2int OneHotDB.T !! y) as [i|] eqn:Hy; [|by left].
    right. cbn [of_option mbind result_bind].
    rewrite alphabet_lowercase_size. unfold OneHotDB.one_hot.
    change OneHotDB.T with (make_tables alphabet_lowercase) in Hy.
    apply char2int_lt in Hy. change (length alphabet_lowercase) with 69%nat in Hy.
    rewrite decide_True by lia. by eexists.
  - destruct (char2int OneHotDB.T !! c) as [i|] eqn:Hcc; [|done].
    exfalso. apply Hout, char2int_dom. by eexists.
Qed.

End Encoders.

(** ** Section 7: matching one-hot keys *)

Section OneHotDB_match.

Variable field : Z.
Hypothesis field_big : 256 ≤ field.

Local Hint Extern 0 Arith => exact (field_arith field) : typeclass_instances.
Local Hint Extern 0 (ArithLaws _) =>
  exact (field_laws field field_big) : typeclass_instances.

Abbreviation dots := (OneHotDB.dots field).
Abbreviation key_match := (OneHotDB.key_match field).

Implicit Types (a b : str).

Lemma share_rows a : share_matrix (rows a) = rows a.
Proof.
  unfold share_matrix, rows. rewrite <-list_fmap_compose.
  apply list_fmap_ext. intros _ c _. simpl. apply share_hot.
Qed.

(** Row by row, the dot product tells whether the two characters at
    that position are the same. *)
Lemma dots_rows a : ∀ b,
  length a = length b →
  Forall (λ c, c ∈ alphabet_lowercase) a →
  Forall (λ c, c ∈ alphabet_lowercase) b →
  dots (rows a) (rows b) = Ok (bit ∘ same <$> zip a b).
Proof.
  intros b Hl Ha Hb. unfold OneHotDB.dots.
  rewrite decide_True by (unfold rows; by rewrite !length_fmap).
  revert b Hl Hb.
  induction Ha as [|c a Hc _ IH]; intros [|c' b] Hl Hb; try done.
  apply Forall_cons in Hb as [Hc' Hb]. injection Hl as Hl.
  change (zip (rows (c :: a)) (rows (c' :: b)))
    with ((hot (index_of c) 69, hot (index_of c') 69)
          :: zip (rows a) (rows b)).
  rewrite mapM_cons. cbn [fst snd].
  change (OneHotDB.row_sum field) with (row_sum_from 0).
  rewrite dot_hot by by apply index_of_lt.
  rewrite IH by done. cbn. do 3 f_equal. unfold same. cbn.
  apply bool_decide_ext. split; [|by intros ->].
  by apply index_of_inj.
Qed.

Lemma forallb_same a : ∀ b,
  length a = length b →
  forallb id (same <$> zip a b) = bool_decide (a = b).
Proof.
  induction a as [|c a IH]; intros [|c' b] Hl; try done.
  injection Hl as Hl. cbn. rewrite IH by done. unfold same. cbn.
  destruct (decide (c = c')) as [->|Hne].
  - rewrite bool_decide_true by done. cbn.
    apply bool_decide_ext. split; [by intros ->|by intros [= ->]].
  - rewrite bool_decide_false by done. cbn.
    rewrite bool_decide_false; [done|]. by intros [= ? ?].
Qed.

(** The match scalar of a stored key against a query: 1 when the
    two encoded strings agree at every position, 0 otherwise. *)
Lemma key_match_rows a b :
  length a = length b → a ≠ [] →
  Forall (λ c, c ∈ alphabet_lowercase) a →
  Forall (λ c, c ∈ alphabet_lowercase) b →
  key_match (rows b) (rows a) = Ok [bit (bool_decide (a = b))].
Proof.
  intros Hl Hne Ha Hb. unfold OneHotDB.key_match.
  rewrite dots_rows by done. cbn [mbind result_bind].
  rewrite list_fmap_compose.
  destruct (same <$> zip a b) as [|f flags] eqn:Hflags.
  { destruct a; [done|]. by destruct b. }
  cbn [fmap list_fmap lookup list_lookup of_option].
  pose proof (foldM_lookup (A:=field_arith field)
                (bit <$> (f :: flags)) [] (bit f)) as Hfold.
  cbn [app length fmap list_fmap] in Hfold.
  unfold OneHotDB.shares. cbn [length mbind result_bind]. rewrite Hfold.
  cbn [mbind result_bind mret result_ret]. do 2 f_equal.
  pose proof (fold_mul_bits (A:=field_arith field)
                (AL:=field_laws field field_big) (f :: flags) f) as Hbits.
  cbn [fmap list_fmap] in Hbits. rewrite Hbits.
  replace (f && forallb id (f :: flags)) with (forallb id (f :: flags))
    by by destruct f.
  by rewrite <-Hflags, forallb_same.
Qed.

End OneHotDB_match.

(** ** Section 7: the one-hot [DecentralizedDB] *)

Section OneHotDB_facts.

Variable field : Z.
Hypothesis field_big : 256 ≤ field.

Abbreviation F := (field_arith field).
Abbreviation FL := (field_laws field field_big).

Abbreviation oh_add_entry := (OneHotDB.add_entry field).
Abbreviation oh_query := (OneHotDB.query field).
Abbreviation oh_final_value := (OneHotDB.final_value field).

Implicit Types (s : OneHotDB.state) (es : list (str * str)).

Lemma share_codes (t : tensor) :
  Forall small t → share (H:=F) t = t.
Proof.
  intros Ht. unfold share. induction Ht as [|x t Hx _ IH]; [done|].
  cbn [fmap list_fmap]. rewrite (norm_small (ArithLaws:=FL)) by done.
  by f_equal.
Qed.

Lemma string2values_codes v n t :
  OneHotDB.string2values v n = Ok t →
  length t = n ∧ Forall (λ x, 0 ≤ x < 69) t
  ∧ OneHotDB.values2string t = OneHotDB.truncate_pad v n.
Proof.
  unfold OneHotDB.string2values, OneHotDB.values2string.
  change OneHotDB.T with (make_tables alphabet_lowercase).
  intros Ht. apply encode_decode in Ht as (Hl & Hb & _ & Hd).
  by rewrite Hl, length_truncate_pad.
Qed.

Lemma codes_small (t : tensor) : Forall (λ x, 0 ≤ x < 69) t → Forall small t.
Proof.
  intros Ht. eapply Forall_impl; [done|]. unfold small. simpl. lia.
Qed.

(** What a successful [add_entry] appends. *)
Lemma onehot_add_entry_ok k v t s :
  (0 < OneHotDB.max_key_len s)%nat →
  Forall (λ c, c ∈ alphabet_lowercase)
         (OneHotDB.truncate_pad k (OneHotDB.max_key_len s)) →
  OneHotDB.string2values v (OneHotDB.max_value_len s) = Ok t →
  oh_add_entry k v s
  = (Ok (),
     {| OneHotDB.max_key_len := OneHotDB.max_key_len s;
        OneHotDB.max_value_len := OneHotDB.max_value_len s;
        OneHotDB.keys :=
          OneHotDB.keys s
          ++ [rows (OneHotDB.truncate_pad k (OneHotDB.max_key_len s))];
        OneHotDB.values := OneHotDB.values s ++ [t] |}).
Proof.
  intros Hn Hk Hv.
  unfold OneHotDB.add_entry, mbind, M_bind, modify, lift, gets. cbn [id].
  rewrite string2one_hot_matrix_ok, Hv by done. cbn.
  unfold OneHotDB.shares. rewrite share_rows by done.
  rewrite share_codes; [done|].
  by apply codes_small, (string2values_codes v (OneHotDB.max_value_len s)).
Qed.

(** When either encoder raises, nothing is appended. *)
Lemma onehot_add_entry_raise k v s :
  (∃ e, OneHotDB.string2one_hot_matrix k (OneHotDB.max_key_len s) = Raise e)
  ∨ (∃ e, OneHotDB.string2values v (OneHotDB.max_value_len s) = Raise e) →
  ∃ e, oh_add_entry k v s = (Raise e, s).
Proof.
  unfold OneHotDB.add_entry, mbind, M_bind, modify, lift, gets. cbn [id].
  intros [[e He]|[e He]].
  - rewrite He. cbn. eauto.
  - destruct (OneHotDB.string2one_hot_matrix _ _); cbn; [|eauto].
    rewrite He. cbn. eauto.
Qed.

Lemma onehot_add_entry_inv k v s s' :
  oh_add_entry k v s = (Ok (), s') →
  (0 < OneHotDB.max_key_len s)%nat
  ∧ Forall (λ c, c ∈ alphabet_lowercase)
           (OneHotDB.truncate_pad k (OneHotDB.max_key_len s))
  ∧ ∃ t, OneHotDB.string2values v (OneHotDB.max_value_len s) = Ok t.
Proof.
  intros Hs.
  destruct (OneHotDB.string2one_hot_matrix k (OneHotDB.max_key_len s))
    as [m|e] eqn:Hk.
  - destruct (OneHotDB.string2values v (OneHotDB.max_value_len s))
      as [t|e] eqn:Hv.
    + apply string2one_hot_matrix_inv in Hk as (Hn & Hk & _). eauto.
    + destruct (onehot_add_entry_raise k v s) as [e' He']; [eauto|].
      congruence.
  - destruct (onehot_add_entry_raise k v s) as [e' He']; [eauto|].
    congruence.
Qed.

Lemma onehot_add_entries es : ∀ s0 s,
  add_entries oh_add_entry es s0 = (Ok (), s) →
  ∃ ts, onehot_filled es ts s0 s.
Proof.
  induction es as [|[k v] es IH]; intros s0 s.
  - cbn. intros [= <-]. exists []. unfold onehot_filled.
    rewrite !app_nil_r. cbn. repeat split; (done || constructor).
  - cbn [add_entries fst snd]. unfold mbind at 1, M_bind at 1.
    destruct (oh_add_entry k v s0) as [[[]|e] s1] eqn:H1; [|done].
    intros Hrest.
    destruct (onehot_add_entry_inv _ _ _ _ H1) as (Hn & Hk & t & Hv).
    rewrite (onehot_add_entry_ok k v t) in H1 by done.
    injection H1 as <-.
    apply IH in Hrest as (ts & Hmk & Hmv & Hks & Hvs & Hal & Hts & _).
    cbn in Hmk, Hmv, Hks, Hvs, Hal, Hts.
    exists (t :: ts). unfold onehot_filled. cbn [fmap list_fmap fst snd].
    rewrite Hmk, Hmv, Hks, Hvs, <-!app_assoc.
    repeat split; [by constructor|by constructor|done].
Qed.

Lemma onehot_query_run q s :
  oh_query q s
  = ((λ fv, remove_dots (OneHotDB.values2string fv)) <$> oh_final_value s q,
     s).
Proof.
  unfold OneHotDB.query, mbind at 1 2, M_bind, gets, lift. cbn [id].
  by destruct (oh_final_value s q).
Qed.

(** The aggregate of a filled store: the values under the queried
    key, summed in the field. *)
Lemma onehot_final_value es mkl mvl s q :
  add_entries oh_add_entry es (OneHotDB.init mkl mvl) = (Ok (), s) →
  es ≠ [] → (0 < mvl)%nat →
  Forall (λ c, c ∈ alphabet_lowercase) (OneHotDB.truncate_pad q mkl) →
  oh_final_value s q
  = Ok (tsum (H:=F) mvl
          (matching (is_key (rows (OneHotDB.truncate_pad q mkl)))
                    (OneHotDB.keys s) (OneHotDB.values s))).
Proof.
  intros Hs Hne Hmvl Hq.
  apply onehot_add_entries
    in Hs as (ts & Hmk & Hmv & Hks & Hvs & Hal & Hts & Hmkl).
  cbn in Hmk, Hmv, Hks, Hvs, Hal, Hts, Hmkl. specialize (Hmkl Hne).
  unfold OneHotDB.final_value. rewrite Hmk.
  rewrite string2one_hot_matrix_ok by done. cbn [fmap result_fmap mbind result_bind].
  unfold OneHotDB.shares. rewrite share_rows by done.
  rewrite Hks, Hvs.
  apply (select_sum (A:=F) (AL:=FL)); [| | |done|].
  - intros K HK. apply list_elem_of_fmap in HK as (k & -> & Hk).
    rewrite Forall_forall in Hal. specialize (Hal k Hk).
    assert (OneHotDB.truncate_pad k mkl ≠ []) as Hnil.
    { intros Hnil. pose proof (length_truncate_pad k mkl) as Hl.
      rewrite Hnil in Hl. simpl in Hl. lia. }
    rewrite (key_match_rows field field_big
               (OneHotDB.truncate_pad k mkl) (OneHotDB.truncate_pad q mkl))
      by (done || by rewrite !length_truncate_pad).
    do 3 f_equal. unfold is_key. apply bool_decide_ext.
    split; [by intros ->|by apply rows_inj].
  - rewrite !length_fmap. apply Forall2_length in Hts.
    by rewrite length_fmap in Hts.
  - intros ->. apply Forall2_length in Hts. rewrite length_fmap in Hts.
    by destruct es.
  - apply Forall_forall. intros t Ht.
    apply list_elem_of_lookup in Ht as [i Hi].
    destruct (Forall2_lookup_r _ _ _ _ _ Hts Hi) as (v & _ & Hv).
    apply string2values_codes in Hv as (Hl & Hb & _).
    split; [done|by apply codes_small].
Qed.

End OneHotDB_facts.

(** ** Section 6: the hashed [DecentralizedDB] *)

Section HashedDB_facts.

Variable hash : str → Z.
Variable field : Z.
Hypothesis field_big : 256 ≤ field.
Variable get : nat → tensor → tensor.
Variable set_list : str → list ascii.

Abbreviation hd_string2key := (HashedDB.string2key hash field).
Abbreviation hd_add_entry := (HashedDB.add_entry hash field).
Abbreviation hd_final_value := (HashedDB.final_value hash field).
Abbreviation hd_attempt := (HashedDB.attempt hash field get set_list).
Abbreviation hd_query := (HashedDB.query hash field get set_list).

Implicit Types (s : HashedDB.state) (es : list (str * str)).

Lemma hashed_string2values_codes v t :
  HashedDB.string2values v = Ok t →
  length t = length v ∧ Forall (λ x, 0 ≤ x < 95) t
  ∧ HashedDB.values2string t = v.
Proof.
  unfold HashedDB.string2values, HashedDB.values2string.
  change HashedDB.T with (make_tables alphabet_letters).
  intros Ht. by apply encode_decode in Ht as (Hl & Hb & _ & Hd).
Qed.

Lemma hashed_share_codes (t : tensor) :
  Forall (λ x, 0 ≤ x < 95) t → share (H:=field_arith field) t = t.
Proof.
  intros Ht. apply share_codes; [done|].
  eapply Forall_impl; [done|]. unfold small. simpl. lia.
Qed.

Lemma hashed_add_entry_ok k v t s :
  HashedDB.string2values v = Ok t →
  hd_add_entry k v s
  = (Ok (),
     {| HashedDB.keys :=
          HashedDB.keys s ++ [share (H:=field_arith field) (hd_string2key k)];
        HashedDB.values := HashedDB.values s ++ [t] |}).
Proof.
  intros Hv. unfold HashedDB.add_entry, mbind, M_bind, modify, lift.
  rewrite Hv. cbn. unfold HashedDB.shares.
  rewrite hashed_share_codes; [done|].
  by apply (hashed_string2values_codes v).
Qed.

(** A value that cannot be encoded leaves both lists as they were. *)
Lemma hashed_add_entry_raise k v e s :
  HashedDB.string2values v = Raise e →
  hd_add_entry k v s = (Raise e, s).
Proof.
  intros Hv. unfold HashedDB.add_entry, mbind, M_bind, modify, lift.
  by rewrite Hv.
Qed.

Lemma hashed_add_entries es : ∀ s0 s,
  add_entries hd_add_entry es s0 = (Ok (), s) →
  ∃ ts, Forall2 (λ v t, HashedDB.string2values v = Ok t) es.*2 ts
        ∧ HashedDB.keys s
          = HashedDB.keys s0
            ++ ((λ k, share (H:=field_arith field) (hd_string2key k))
                <$> es.*1)
        ∧ HashedDB.values s = HashedDB.values s0 ++ ts.
Proof.
  induction es as [|[k v] es IH]; intros s0 s.
  - cbn. intros [= <-]. exists []. rewrite !app_nil_r. by repeat split.
  - cbn [add_entries fst snd]. unfold mbind at 1, M_bind at 1.
    destruct (HashedDB.string2values v) as [t|e] eqn:Hv.
    + rewrite (hashed_add_entry_ok _ _ t) by done. intros Hrest.
      apply IH in Hrest as (ts & Hts & Hk & Hvs). cbn in Hk, Hvs.
      exists (t :: ts). cbn [fmap list_fmap fst snd].
      rewrite Hk, Hvs, <-!app_assoc. repeat split. by constructor.
    + by rewrite (hashed_add_entry_raise _ _ e).
Qed.

Lemma hashed_teq (k q : str) :
  teq (share (H:=field_arith field) (hd_string2key k))
      (share (H:=field_arith field) (hd_string2key q))
  = Ok [bit (is_key (share (H:=field_arith field) (hd_string2key q))
                    (share (H:=field_arith field) (hd_string2key k)))].
Proof.
  unfold teq, HashedDB.string2key, share, pointwise, is_key. cbn.
  do 2 f_equal. case_decide as Hd.
  - by rewrite Hd, bool_decide_true.
  - rewrite bool_decide_false; [done|]. by intros [= ?].
Qed.

(** The aggregate of a filled store: the values under the queried
    key, summed in the field. *)
Lemma hashed_final_value es s (L : nat) q :
  add_entries hd_add_entry es HashedDB.init = (Ok (), s) →
  es ≠ [] → (0 < L)%nat →
  (∀ e, e ∈ es → length e.2 = L) →
  hd_final_value s q
  = Ok (tsum (H:=field_arith field) L
          (matching (is_key (share (H:=field_arith field) (hd_string2key q)))
                    (HashedDB.keys s) (HashedDB.values s))).
Proof.
  intros Hs Hne HL Hlen.
  apply hashed_add_entries in Hs as (ts & Hts & Hk & Hv).
  cbn in Hk, Hv. unfold HashedDB.final_value. rewrite Hk, Hv.
  pose proof (Forall2_length _ _ _ Hts) as Hlts.
  rewrite length_fmap in Hlts. unfold HashedDB.shares.
  apply (select_sum (A:=field_arith field)
           (AL:=field_laws field field_big)); [| | |done|].
  - intros k' Hk'. apply list_elem_of_fmap in Hk' as (k0 & -> & _).
    apply hashed_teq.
  - by rewrite !length_fmap.
  - intros ->. by destruct es.
  - apply Forall_forall. intros t Ht.
    apply list_elem_of_lookup in Ht as [i Hi].
    destruct (Forall2_lookup_r _ _ _ _ _ Hts Hi) as (v & Hvi & Hv').
    apply hashed_string2values_codes in Hv' as (Hl & Hb & _).
    apply list_lookup_fmap_Some in Hvi as (e & -> & He).
    split.
    + rewrite Hl. apply Hlen. by eapply list_elem_of_lookup_2.
    + eapply Forall_impl; [done|]. unfold small. simpl. lia.
Qed.

(** [query] runs the protocol again for as long as the decoded
    string puts the sentinel first, and has no ceiling of its own. *)
Lemma hashed_query_exhausts limit : ∀ n q s,
  (∀ i, (i < limit)%nat → ∃ r, hd_attempt (n + i) s q = Ok (r, true)) →
  hd_query limit n q s = (Raise RecursionError, s).
Proof.
  induction limit as [|limit IH]; intros n q s Hall; [done|].
  cbn [HashedDB.query]. unfold mbind at 1 2, M_bind, gets, lift. cbn [id].
  destruct (Hall 0%nat) as [r Hr]; [lia|].
  rewrite Nat.add_0_r in Hr. rewrite Hr.
  apply IH. intros i Hi. destruct (Hall (S i)) as [r' Hr']; [lia|].
  exists r'. by rewrite Nat.add_succ_comm.
Qed.

Lemma hashed_query_first limit : ∀ n m q s o,
  (m < limit)%nat →
  (∀ i, (i < m)%nat → ∃ r, hd_attempt (n + i) s q = Ok (r, true)) →
  (hd_attempt (n + m) s q ≫= λ ra, if ra.2 : bool then Raise KeyError else Ok ra.1)
  = o →
  (∀ r, hd_attempt (n + m) s q ≠ Ok (r, true)) →
  hd_query limit n q s = (o, s).
Proof.
  induction limit as [|limit IH]; intros n m q s o Hm Hall Ho Hlast; [lia|].
  cbn [HashedDB.query]. unfold mbind at 1 2, M_bind, gets, lift. cbn [id].
  destruct m as [|m].
  - rewrite Nat.add_0_r in Ho, Hlast.
    destruct (hd_attempt n s q) as [[r [|]]|e]; cbn in Ho; subst o;
      [by destruct (Hlast r)|done..].
  - destruct (Hall 0%nat) as [r Hr]; [lia|].
    rewrite Nat.add_0_r in Hr. rewrite Hr.
    apply (IH (S n) m); [lia| |by rewrite Nat.add_succ_comm..].
    intros i Hi. destruct (Hall (S i)) as [r' Hr']; [lia|].
    exists r'. by rewrite Nat.add_succ_comm.
Qed.

(** A decode made of sentinels only is always run again, in whatever
    order the character set is listed. *)
Lemma hashed_attempt_all_sentinel n s q fv (L : nat) :
  (∀ r c, c ∈ set_list r ↔ c ∈ r) →
  hd_final_value s q = Ok fv →
  HashedDB.values2string (get n fv) = replicate (S L) dot →
  hd_attempt n s q = Ok (replicate (S L) dot, true).
Proof.
  intros Hset Hfv Hdec. unfold HashedDB.attempt.
  rewrite Hfv. cbn [mbind result_bind]. rewrite Hdec.
  destruct (set_list (replicate (S L) dot)) as [|c cs] eqn:Hsl.
  - exfalso.
    assert (dot ∈ set_list (replicate (S L) dot)) as Hin
      by (apply Hset; apply list_elem_of_here).
    rewrite Hsl in Hin. by apply elem_of_nil in Hin.
  - assert (c = dot) as ->.
    { assert (c ∈ set_list (replicate (S L) dot)) as Hin
        by (rewrite Hsl; apply list_elem_of_here).
      apply (proj1 (Hset _ _)) in Hin.
      by apply elem_of_replicate_inv in Hin. }
    cbn. by rewrite bool_decide_true.
Qed.

Lemma hashed_query_readonly limit : ∀ n q, readonly (hd_query limit n q).
Proof.
  induction limit as [|limit IH]; intros n q s; [done|].
  cbn [HashedDB.query]. unfold mbind at 1 2, M_bind, gets, lift. cbn [id].
  destruct (hd_attempt n s q) as [[r [|]]|e]; [apply IH|done..].
Qed.

End HashedDB_facts.

(** * The notebook's outputs *)

Example string2values_hello_world :
  TensorDB.string2values (py "hello world")
  = Ok [8; 5; 12; 12; 15; 0; 23; 15; 18; 12; 4].
Proof. by vm_compute. Qed.

Example values2string_hello_world :
  TensorDB.values2string [8; 5; 12; 12; 15; 0; 23; 15; 18; 12; 4]
  = Ok (py "hello world").
Proof. by vm_compute. Qed.

Example phone_book_values :
  TensorDB.values phone_book
  = [[70; 54; 55; 56; 71; 0; 57; 58; 59; 75; 60; 61; 62; 53];
     [70; 55; 56; 57; 71; 0; 58; 59; 60; 75; 61; 62; 53; 54];
     [70; 56; 57; 58; 71; 0; 59; 60; 61; 75; 62; 53; 54; 55]].
Proof. by vm_compute. Qed.

Example phone_book_sue :
  TensorDB.query sample_hash securenn_field (py "Sue") phone_book
  = (Ok (py "(345) 678-9012"), phone_book).
Proof. by vm_compute. Qed.

Example one_hot_book_key :
  OneHotDB.query securenn_field (py "Key") one_hot_book
  = (Ok (py "really big value"), one_hot_book).
Proof. by vm_compute. Qed.

(** The answer of the notebook's Section 6 to the query for Bob:
    a garbled first run whose character set lists the space first is
    returned as it is, full stops and all; listed the other way round the
    same run is thrown away and the second run answers. *)
Example shared_book_garbled_bob :
  HashedDB.query sample_hash securenn_field garbled_once remove_dups 5 0
    (py "Bob") shared_book
  = (Ok (py "..... ........"), shared_book)
  ∧ HashedDB.query sample_hash securenn_field garbled_once first_seen 5 0
      (py "Bob") shared_book
    = (Ok (py "(123) 456-7890"), shared_book).
Proof. split; by vm_compute. Qed.

(** * The claims *)

(** ** Key encodings *)

Lemma shift_mod_neq (h : Z) :
  (h + 1234) `mod` 2147483647 ≠ h `mod` 2147483647.
Proof.
  rewrite <-Z.add_mod_idemp_l by done.
  pose proof (Z.mod_pos_bound h 2147483647 eq_refl) as Hb.
  generalize dependent (h `mod` 2147483647). intros x Hb H.
  destruct (decide (x + 1234 < 2147483647)).
  - rewrite Z.mod_small in H by lia. lia.
  - rewrite <-(Z_mod_plus_full _ (-1)) in H.
    rewrite Z.mod_small in H by lia. lia.
Qed.

(** C7, as stated, fails for the shared database: its key for Bob is
    not [hash(k) mod FIELD], and no hash function makes it so. *)
Lemma C7_counterexample :
  HashedDB.string2key sample_hash securenn_field (py "Bob")
  ≠ [sample_hash (py "Bob") `mod` securenn_field]
  ∧ ¬ (∃ hash : str → Z,
         HashedDB.string2key hash securenn_field (py "Bob")
         = [hash (py "Bob") `mod` securenn_field]).
Proof.
  split; [by vm_compute|].
  intros [hash H]. unfold HashedDB.string2key in H.
  injection H as H. by apply shift_mod_neq in H.
Qed.

(** C7, amended: the key encoding is a single integer of the field;
    it is [hash(k) mod FIELD] in [TensorDB] and
    [(hash(k) + 1234) mod FIELD] in the hashed [DecentralizedDB]. *)
Theorem C7_string2key (hash : str → Z) (field : Z) (k : str) :
  0 < field →
  (∃ x, TensorDB.string2key hash field k = [x]
        ∧ x = hash k `mod` field ∧ 0 ≤ x < field)
  ∧ (∃ y, HashedDB.string2key hash field k = [y]
          ∧ y = (hash k + 1234) `mod` field ∧ 0 ≤ y < field
          ∧ share (H:=field_arith field) [y] = [y]).
Proof.
  intros Hf. split.
  - eexists. split; [done|]. split; [done|]. by apply Z.mod_pos_bound.
  - eexists. split; [done|]. split; [done|].
    split; [by apply Z.mod_pos_bound|].
    unfold share. cbn. by rewrite Zmod_mod.
Qed.

Lemma C7_string2key_witness :
  (∃ x, TensorDB.string2key sample_hash securenn_field (py "Bob") = [x]
        ∧ x = sample_hash (py "Bob") `mod` securenn_field
        ∧ 0 ≤ x < securenn_field)
  ∧ (∃ y, HashedDB.string2key sample_hash securenn_field (py "Bob") = [y]
          ∧ y = (sample_hash (py "Bob") + 1234) `mod` securenn_field
          ∧ 0 ≤ y < securenn_field
          ∧ share (H:=field_arith securenn_field) [y] = [y]).
Proof.
  apply (C7_string2key sample_hash securenn_field (py "Bob")).
  reflexivity.
Defined.

(** C8, as stated, fails on a key with a character outside the
    alphabet: the lookup in [char2int] raises. *)
Lemma C8_counterexample :
  OneHotDB.string2one_hot_matrix [tab] 8 = Raise KeyError.
Proof. by vm_compute. Qed.

(** C8, amended: when the first [max_len] characters of the key,
    lowercased, are in the alphabet and [max_len] is positive, the
    encoding is a matrix of [max_len] rows of the alphabet's size; row
    [i] is one-hot at the position in the alphabet of character [i] of
    the lowercased key cut to [max_len] characters or padded on the
    right with the pad symbol. *)
Theorem C8_string2one_hot_matrix (str_input : str) (max_len : nat) :
  (0 < max_len)%nat →
  Forall (λ c, c ∈ alphabet_lowercase) (lower (take max_len str_input)) →
  ∃ m, OneHotDB.string2one_hot_matrix str_input max_len = Ok m
       ∧ length m = max_len
       ∧ ∀ i row, m !! i = Some row →
           length row = length alphabet_lowercase
           ∧ ∃ c j, pad_or_truncate (lower str_input) max_len !! i = Some c
                    ∧ alphabet_lowercase !! j = Some c
                    ∧ row = <[j := 1]> (replicate (length alphabet_lowercase) 0).
Proof.
  intros Hn Hs. pose proof (truncate_pad_alphabet _ _ Hs) as Hall.
  exists (rows (OneHotDB.truncate_pad str_input max_len)).
  split; [by apply string2one_hot_matrix_ok|].
  split; [unfold rows; by rewrite length_fmap, length_truncate_pad|].
  intros i row Hrow. unfold rows in Hrow.
  apply list_lookup_fmap_Some in Hrow as (c & -> & Hc).
  change (length alphabet_lowercase) with 69%nat.
  split; [apply length_hot|].
  exists c, (index_of c). rewrite <-truncate_pad_spec.
  split; [done|]. split; [|done].
  apply index_of_lookup. rewrite Forall_forall in Hall.
  apply Hall. by eapply list_elem_of_lookup_2.
Qed.

Lemma C8_string2one_hot_matrix_witness :
  ∃ m, OneHotDB.string2one_hot_matrix (py "Not a Person") 3 = Ok m
       ∧ length m = 3%nat
       ∧ ∀ i row, m !! i = Some row →
           length row = length alphabet_lowercase
           ∧ ∃ c j, pad_or_truncate (lower (py "Not a Person")) 3 !! i = Some c
                    ∧ alphabet_lowercase !! j = Some c
                    ∧ row = <[j := 1]> (replicate (length alphabet_lowercase) 0).
Proof.
  apply (C8_string2one_hot_matrix (py "Not a Person") 3).
  - lia.
  - apply (bool_decide_unpack _). vm_compute. reflexivity.
Defined.

(** ** Value encodings *)

(** C6, as stated, fails on a string with a capital letter: the
    encoder lowercases before it pads. *)
Lemma C6_counterexample :
  OneHotDB.values2string <$> OneHotDB.string2values (py "Bob") 8
  ≠ Ok (pad_or_truncate (py "Bob") 8).
Proof. intros H. by vm_compute in H. Qed.

(** C6, amended: for a string whose first [max_len] characters,
    lowercased, are in the alphabet, decoding the value encoding gives the
    lowercased string cut to [max_len] characters or padded to it with
    the pad symbol. *)
Theorem C6_round_trip (s : str) (max_len : nat) :
  Forall (λ c, c ∈ alphabet_lowercase) (lower (take max_len s)) →
  OneHotDB.values2string <$> OneHotDB.string2values s max_len
  = Ok (pad_or_truncate (lower s) max_len).
Proof.
  intros Hs. apply truncate_pad_alphabet in Hs.
  destruct (encode_total alphabet_lowercase _ Hs) as [t Ht].
  change (OneHotDB.string2values s max_len = Ok t) in Ht.
  rewrite Ht. cbn. f_equal.
  apply string2values_codes in Ht as (_ & _ & ->).
  apply truncate_pad_spec.
Qed.

Lemma C6_round_trip_witness :
  OneHotDB.values2string <$> OneHotDB.string2values (py "Bob") 8
  = Ok (pad_or_truncate (lower (py "Bob")) 8).
Proof.
  apply (C6_round_trip (py "Bob") 8).
  apply (bool_decide_unpack _). vm_compute. reflexivity.
Defined.

(** ** One-hot matching *)

(** C5: for a stored key and a query that both encode, the dot
    product at each position is 1 when the two characters there are the
    same and 0 otherwise, and the product the loop accumulates is 1 when
    every position agrees and 0 otherwise. *)
Theorem C5_one_hot_match (field : Z) (k q : str) (n : nat) (K Q : matrix) :
  256 ≤ field →
  OneHotDB.string2one_hot_matrix k n = Ok K →
  OneHotDB.string2one_hot_matrix q n = Ok Q →
  let k' := OneHotDB.truncate_pad k n in
  let q' := OneHotDB.truncate_pad q n in
  OneHotDB.dots field (share_matrix (H:=field_arith field) K)
                      (share_matrix (H:=field_arith field) Q)
  = Ok ((λ cc, if bool_decide (cc.1 = cc.2) then 1 else 0) <$> zip k' q')
  ∧ OneHotDB.key_match field (share_matrix (H:=field_arith field) Q)
                             (share_matrix (H:=field_arith field) K)
    = Ok [if forallb (λ cc, bool_decide (cc.1 = cc.2)) (zip k' q')
          then 1 else 0]
  ∧ (forallb (λ cc, bool_decide (cc.1 = cc.2)) (zip k' q') = true ↔ k' = q').
Proof.
  intros Hf HK HQ k' q'.
  apply string2one_hot_matrix_inv in HK as (Hn & Hk & ->).
  apply string2one_hot_matrix_inv in HQ as (_ & Hq & ->).
  fold k' in Hk. fold q' in Hq. fold k' q'.
  assert (length k' = length q') as Hl
    by (unfold k', q'; by rewrite !length_truncate_pad).
  assert (forallb (λ cc, bool_decide (cc.1 = cc.2)) (zip k' q')
          = bool_decide (k' = q')) as Hall.
  { rewrite <-(forallb_same k' q') by done. clear.
    generalize (zip k' q'). intros l. induction l as [|cc l IH]; [done|].
    cbn. by rewrite IH. }
  rewrite !share_rows by done. split; [|split].
  - by rewrite (dots_rows field Hf k' q').
  - rewrite (key_match_rows field Hf k' q'); [by rewrite Hall|done| |done..].
    intros Hnil. rewrite Hnil in Hl. unfold q' in Hl.
    rewrite length_truncate_pad in Hl. simpl in Hl. lia.
  - rewrite Hall. apply bool_decide_eq_true.
Qed.

Lemma C5_one_hot_match_witness :
  let k' := OneHotDB.truncate_pad (py "Bob") 3 in
  let q' := OneHotDB.truncate_pad (py "bot") 3 in
  OneHotDB.dots securenn_field
    (share_matrix (H:=field_arith securenn_field) (rows (py "bob")))
    (share_matrix (H:=field_arith securenn_field) (rows (py "bot")))
  = Ok ((λ cc, if bool_decide (cc.1 = cc.2) then 1 else 0) <$> zip k' q')
  ∧ OneHotDB.key_match securenn_field
      (share_matrix (H:=field_arith securenn_field) (rows (py "bot")))
      (share_matrix (H:=field_arith securenn_field) (rows (py "bob")))
    = Ok [if forallb (λ cc, bool_decide (cc.1 = cc.2)) (zip k' q')
          then 1 else 0]
  ∧ (forallb (λ cc, bool_decide (cc.1 = cc.2)) (zip k' q') = true ↔ k' = q').
Proof.
  apply (C5_one_hot_match securenn_field (py "Bob") (py "bot") 3).
  - by vm_compute.
  - by vm_compute.
  - by vm_compute.
Defined.

(** ** The empty store *)

Lemma select_nil `{Arith} {K} (key_matches : K → result tensor) e ks :
  (∀ k, k ∈ ks → ∃ km, key_matches k = Ok km) →
  select key_matches e ks [] = Raise IndexError.
Proof.
  intros Hks. unfold select.
  assert (∃ kms, mapM key_matches ks = Ok kms) as [kms ->]; [|done].
  induction ks as [|k ks IH]; [by eexists|].
  destruct (Hks k) as [km Hkm]; [apply list_elem_of_here|].
  destruct IH as [kms Hkms].
  { intros k' Hk'. apply Hks. by apply list_elem_of_further. }
  rewrite mapM_cons, Hkm, Hkms. by eexists.
Qed.

(** C9: on a store with no record every [query] raises, and when the
    query itself encodes the exception is the [IndexError] of
    [value_match[0]]; no result and no NotFound is returned. *)
Theorem C9_query_empty_store
    (hash : str → Z) (field : Z) (get : nat → tensor → tensor)
    (set_list : str → list ascii) (q : str)
    (limit n max_key_len max_value_len : nat) :
  TensorDB.query hash field q TensorDB.init
  = (Raise IndexError, TensorDB.init)
  ∧ HashedDB.query hash field get set_list (S limit) n q HashedDB.init
    = (Raise IndexError, HashedDB.init)
  ∧ OneHotDB.query field q (OneHotDB.init max_key_len max_value_len)
    = (OneHotDB.string2one_hot_matrix q max_key_len
         ≫= (λ _, Raise IndexError),
       OneHotDB.init max_key_len max_value_len).
Proof.
  split; [|split].
  - rewrite tensordb_query_run. unfold TensorDB.final_value.
    cbn [TensorDB.keys TensorDB.values TensorDB.init].
    by rewrite select_nil by by intros ? ?%elem_of_nil.
  - cbn [HashedDB.query]. unfold mbind at 1 2, M_bind, gets, lift. cbn [id].
    unfold HashedDB.attempt, HashedDB.final_value.
    cbn [HashedDB.keys HashedDB.values HashedDB.init].
    by rewrite select_nil by by intros ? ?%elem_of_nil.
  - rewrite onehot_query_run. unfold OneHotDB.final_value.
    cbn [OneHotDB.keys OneHotDB.values OneHotDB.init OneHotDB.max_key_len].
    destruct (OneHotDB.string2one_hot_matrix q max_key_len); [|done].
    cbn [fmap result_fmap mbind result_bind].
    by rewrite select_nil by by intros ? ?%elem_of_nil.
Qed.

(** ** The two lists of the store *)

Lemma tensordb_string2values_raise (s : str) :
  ¬ Forall (λ c, c ∈ alphabet_letters) s →
  TensorDB.string2values s = Raise KeyError.
Proof.
  intros Hs. apply not_Forall_Exists in Hs; [|apply _].
  apply Exists_exists in Hs as (c & Hc & Hout).
  unfold TensorDB.string2values.
  change TensorDB.T with (make_tables alphabet_letters).
  by apply (encode_raise _ _ c).
Qed.

Lemma tensordb_string2values_ok (s : str) :
  Forall (λ c, c ∈ alphabet_letters) s →
  ∃ t, TensorDB.string2values s = Ok t.
Proof.
  intros Hs. unfold TensorDB.string2values.
  change TensorDB.T with (make_tables alphabet_letters).
  by apply encode_total.
Qed.

(** [TensorDB.add_entry] on a value with a tab: the key is already
    in [keys] when the encoding of the value raises. *)
Example tensordb_add_entry_unequal :
  TensorDB.add_entry sample_hash securenn_field (py "Bob") [tab] TensorDB.init
  = (Raise KeyError,
     {| TensorDB.keys := [[sample_hash (py "Bob") `mod` securenn_field]];
        TensorDB.values := [] |}).
Proof. by vm_compute. Qed.

(** The same call on the two [DecentralizedDB] classes, which encode
    key and value before they append either: the store is left as it
    was. *)
Example hashed_add_entry_untouched :
  HashedDB.add_entry sample_hash securenn_field (py "Bob") [tab] HashedDB.init
  = (Raise KeyError, HashedDB.init).
Proof. by vm_compute. Qed.

Example onehot_add_entry_untouched :
  OneHotDB.add_entry securenn_field (py "Bob") [tab] (OneHotDB.init 8 256)
  = (Raise KeyError, OneHotDB.init 8 256).
Proof. by vm_compute. Qed.

(** C10: [TensorDB.add_entry] does not keep the two lists in step.
    It appends the key before it encodes the value, so on a value with a
    character outside the alphabet it raises [KeyError] with the key
    already in [keys] and nothing added to [values]: lists of equal
    lengths are left with different lengths. *)
Theorem C10_tensordb_add_entry_out_of_step
    (hash : str → Z) (field : Z) (k v : str) (s : TensorDB.state) :
  ¬ Forall (λ c, c ∈ alphabet_letters) v →
  length (TensorDB.keys s) = length (TensorDB.values s) →
  let '(r, s') := TensorDB.add_entry hash field k v s in
  r = Raise KeyError
  ∧ TensorDB.keys s' = TensorDB.keys s ++ [TensorDB.string2key hash field k]
  ∧ TensorDB.values s' = TensorDB.values s
  ∧ length (TensorDB.keys s') = S (length (TensorDB.values s')).
Proof.
  intros Hv Hl.
  rewrite (tensordb_add_entry_raise hash field k v KeyError)
    by by apply tensordb_string2values_raise.
  cbn [TensorDB.keys TensorDB.values]. repeat split.
  rewrite length_app. cbn [length]. lia.
Qed.

Lemma C10_tensordb_add_entry_out_of_step_witness :
  let '(r, s') :=
    TensorDB.add_entry sample_hash securenn_field (py "Bob") [tab]
      TensorDB.init in
  r = Raise KeyError
  ∧ TensorDB.keys s'
    = TensorDB.keys TensorDB.init
      ++ [TensorDB.string2key sample_hash securenn_field (py "Bob")]
  ∧ TensorDB.values s' = TensorDB.values TensorDB.init
  ∧ length (TensorDB.keys s') = S (length (TensorDB.values s')).
Proof.
  apply (C10_tensordb_add_entry_out_of_step sample_hash securenn_field
           (py "Bob") [tab] TensorDB.init).
  - apply (bool_decide_unpack _). by vm_compute.
  - done.
Defined.

(** ** Aggregation *)

(** C4, as stated, fails in [TensorDB]: two values of different
    lengths under one encoded key make the sum, and the query, raise
    [RuntimeError]; and two of the notebook's phone numbers under one key
    have an aggregate that is their elementwise sum, but the query raises
    [KeyError], as the sum holds numbers that are no character codes. *)
Lemma C4_counterexample :
  (∃ s, add_entries (TensorDB.add_entry sample_hash securenn_field)
          [(py "Bob", py "ab"); (py "Bob", py "bcd")] TensorDB.init
        = (Ok (), s)
        ∧ TensorDB.values s = [[1; 2]; [2; 3; 4]]
        ∧ TensorDB.final_value sample_hash securenn_field s (py "Bob")
          = Raise RuntimeError
        ∧ TensorDB.query sample_hash securenn_field (py "Bob") s
          = (Raise RuntimeError, s))
  ∧ (∃ s t1 t2,
       add_entries (TensorDB.add_entry sample_hash securenn_field)
         [(py "Bob", py "(123) 456-7890"); (py "Bob", py "(234) 567-8901")]
         TensorDB.init = (Ok (), s)
       ∧ TensorDB.values s = [t1; t2]
       ∧ TensorDB.final_value sample_hash securenn_field s (py "Bob")
         = Ok (zip_with Z.add t1 t2)
       ∧ TensorDB.query sample_hash securenn_field (py "Bob") s
         = (Raise KeyError, s)).
Proof.
  split.
  - eexists. split; [by vm_compute|]. split; [by vm_compute|].
    split; by vm_compute.
  - do 3 eexists. split; [by vm_compute|]. split; [by vm_compute|].
    split; by vm_compute.
Qed.

(** C4, amended: with exactly two entries under one encoded key, of
    one positive width (a premise in [TensorDB], a fact of the encoder in
    the one-hot store), the aggregate is the elementwise sum of their two
    value encodings and [query] returns what [values2string] gives on that
    sum (with the full stops removed, in the one-hot store).  In general,
    in a filled store whose values have one positive width, the aggregate
    is the elementwise sum, in the arithmetic of the store, of the values
    of the records whose encoded key equals the encoded query. *)
Theorem C4_duplicate_keys_sum (hash : str → Z) (field : Z) :
  (∀ k1 v1 k2 v2 s t1 t2,
     add_entries (TensorDB.add_entry hash field) [(k1, v1); (k2, v2)]
       TensorDB.init = (Ok (), s) →
     TensorDB.string2key hash field k1 = TensorDB.string2key hash field k2 →
     TensorDB.values s = [t1; t2] →
     length v1 = length v2 → v1 ≠ [] →
     TensorDB.final_value hash field s k1 = Ok (zip_with Z.add t1 t2)
     ∧ TensorDB.query hash field k1 s
       = (TensorDB.values2string (zip_with Z.add t1 t2), s))
  ∧ (∀ max_key_len max_value_len k1 v1 k2 v2 s K t1 t2,
       256 ≤ field →
       add_entries (OneHotDB.add_entry field) [(k1, v1); (k2, v2)]
         (OneHotDB.init max_key_len max_value_len) = (Ok (), s) →
       OneHotDB.keys s = [K; K] →
       OneHotDB.values s = [t1; t2] →
       (0 < max_value_len)%nat →
       OneHotDB.final_value field s k1 = Ok (zip_with Z.add t1 t2)
       ∧ OneHotDB.query field k1 s
         = (Ok (remove_dots (OneHotDB.values2string (zip_with Z.add t1 t2))),
            s))
  ∧ (∀ es s (L : nat) q,
       add_entries (TensorDB.add_entry hash field) es TensorDB.init
       = (Ok (), s) →
       es ≠ [] → (0 < L)%nat → (∀ e, e ∈ es → length e.2 = L) →
       TensorDB.final_value hash field s q
       = Ok (tsum (H:=int64_arith) L
               (matching (λ key, bool_decide
                                   (key = TensorDB.string2key hash field q))
                         (TensorDB.keys s) (TensorDB.values s))))
  ∧ (∀ es max_key_len max_value_len s q Q,
       256 ≤ field →
       add_entries (OneHotDB.add_entry field) es
         (OneHotDB.init max_key_len max_value_len) = (Ok (), s) →
       es ≠ [] → (0 < max_value_len)%nat →
       OneHotDB.string2one_hot_matrix q max_key_len = Ok Q →
       OneHotDB.final_value field s q
       = Ok (tsum (H:=field_arith field) max_value_len
               (matching (λ key, bool_decide (key = Q))
                         (OneHotDB.keys s) (OneHotDB.values s)))).
Proof.
  split; [|split; [|split]].
  - intros k1 v1 k2 v2 s t1 t2 Hs Hk Hv Hl Hne.
    assert (TensorDB.final_value hash field s k1 = Ok (zip_with Z.add t1 t2))
      as Hfv.
    { rewrite (tensordb_final_value hash field _ s (length v1)) by
        (done || (destruct v1; [done|cbn; lia])
         || by intros e [->| ->%list_elem_of_singleton]%elem_of_cons).
      apply tensordb_add_entries in Hs as (ts & Hts & Hks & Hvs).
      cbn in Hks, Hvs. change ([(k1, v1); (k2, v2)].*2) with [v1; v2] in Hts.
      rewrite Hks, Hvs. rewrite Hv in Hvs. subst ts.
      rewrite Hk.
      change (matching _ _ _)
        with (matching (is_key (TensorDB.string2key hash field k2))
                [TensorDB.string2key hash field k2;
                 TensorDB.string2key hash field k2] [t1; t2]).
      rewrite matching_both.
      destruct (mapM_lookup _ _ _ 0%nat v1 Hts eq_refl) as (? & H1 & [= <-]).
      destruct (mapM_lookup _ _ _ 1%nat v2 Hts eq_refl) as (? & H2 & [= <-]).
      apply tensordb_string2values_codes in H1 as (Hl1 & Hb1 & _).
      apply tensordb_string2values_codes in H2 as (Hl2 & Hb2 & _).
      rewrite <-Hl1. f_equal.
      apply (tsum_two (AL:=int64_laws)); [lia|..];
        (eapply Forall_impl; [done|]; cbn; lia). }
    split; [done|]. by rewrite tensordb_query_run, Hfv.
  - intros mkl mvl k1 v1 k2 v2 s K t1 t2 Hf Hs HK Hv Hmvl.
    assert (OneHotDB.final_value field s k1 = Ok (zip_with Z.add t1 t2))
      as Hfv.
    { pose proof Hs as Hfill.
      apply (onehot_add_entries field Hf)
        in Hfill as (ts & _ & _ & Hks & Hvs & Hal & Hts & _).
      cbn in Hks, Hvs, Hal, Hts. rewrite HK in Hks. injection Hks as -> HK2.
      apply Forall_cons in Hal as [Hk1 _].
      rewrite (onehot_final_value field Hf _ mkl mvl s) by done.
      rewrite HK, Hv, HK2. rewrite matching_both.
      rewrite Hv in Hvs. subst ts.
      apply Forall2_cons in Hts as [H1 Hts].
      apply Forall2_cons in Hts as [H2 _].
      apply string2values_codes in H1 as (Hl1 & Hb1 & _).
      apply string2values_codes in H2 as (Hl2 & Hb2 & _).
      rewrite <-Hl1. f_equal.
      apply (tsum_two (AL:=field_laws field Hf)); [lia|..];
        (eapply Forall_impl; [done|]; cbn; lia). }
    split; [done|]. by rewrite onehot_query_run, Hfv.
  - intros es s L q Hs Hne HL Hlen.
    by apply (tensordb_final_value hash field es).
  - intros es mkl mvl s q Q Hf Hs Hne Hmvl HQ.
    apply string2one_hot_matrix_inv in HQ as (_ & Hq & ->).
    by apply (onehot_final_value field Hf es).
Qed.

Lemma C4_duplicate_keys_sum_witness :
  (TensorDB.final_value sample_hash securenn_field tensor_twice (py "Bob")
   = Ok (zip_with Z.add [1; 2] [3; 4])
   ∧ TensorDB.query sample_hash securenn_field (py "Bob") tensor_twice
     = (TensorDB.values2string (zip_with Z.add [1; 2] [3; 4]), tensor_twice))
  ∧ (OneHotDB.final_value securenn_field one_hot_twice (py "Bob")
     = Ok (zip_with Z.add [1; 2; 50; 50] [3; 4; 50; 50])
     ∧ OneHotDB.query securenn_field (py "Bob") one_hot_twice
       = (Ok (remove_dots (OneHotDB.values2string
                             (zip_with Z.add [1; 2; 50; 50] [3; 4; 50; 50]))),
          one_hot_twice))
  ∧ TensorDB.final_value sample_hash securenn_field phone_book (py "Sue")
    = Ok (tsum (H:=int64_arith) 14
            (matching (λ key, bool_decide
                                (key = TensorDB.string2key sample_hash
                                         securenn_field (py "Sue")))
                      (TensorDB.keys phone_book) (TensorDB.values phone_book)))
  ∧ OneHotDB.final_value securenn_field one_hot_book (py "Key")
    = Ok (tsum (H:=field_arith securenn_field) 20
            (matching (λ key, bool_decide (key = rows (py "key")))
                      (OneHotDB.keys one_hot_book)
                      (OneHotDB.values one_hot_book))).
Proof.
  pose proof (C4_duplicate_keys_sum sample_hash securenn_field)
    as (H1 & H2 & H3 & H4).
  split; [|split; [|split]].
  - apply (H1 (py "Bob") (py "ab") (py "Bob") (py "cd")).
    + by vm_compute.
    + by vm_compute.
    + by vm_compute.
    + by vm_compute.
    + done.
  - apply (H2 3%nat 4%nat (py "Bob") (py "ab") (py "bob") (py "cd")
              one_hot_twice (rows (py "bob"))).
    + by vm_compute.
    + by vm_compute.
    + by vm_compute.
    + by vm_compute.
    + lia.
  - apply (H3 [(py "Bob", py "(123) 456-7890");
               (py "Bill", py "(234) 567-8901");
               (py "Sue", py "(345) 678-9012")]).
    + by vm_compute.
    + done.
    + lia.
    + intros e He. repeat (apply elem_of_cons in He as [->|He]; [done|]).
      by apply elem_of_nil in He.
  - apply (H4 [(py "Bob", py "(123) 456 7890");
               (py "Bill", py "(234) 567 8901");
               (py "Key", py "Really Big value.")] 3%nat 20%nat).
    + by vm_compute.
    + by vm_compute.
    + done.
    + lia.
    + by vm_compute.
Defined.

(** ** Queries for stored and for absent keys *)

Lemma remove_dots_truncate_pad v n :
  remove_dots (OneHotDB.truncate_pad v n) = remove_dots (lower (take n v)).
Proof.
  unfold OneHotDB.truncate_pad, remove_dots. case_decide; [|done].
  rewrite filter_app.
  assert (∀ m, filter (λ c, c ≠ dot) (replicate m dot) = []) as ->.
  { induction m as [|m IH]; [done|]. cbn [replicate].
    by rewrite filter_cons_False by (intros Hd; by apply Hd). }
  by rewrite app_nil_r.
Qed.

(** C1, as stated, fails.  In the one-hot store a value with a
    capital letter comes back lowercased, one with a full stop comes back
    without it, and one longer than [max_value_len] comes back cut.  In
    [TensorDB], with values of
    different lengths under different keys, the query for a stored key
    raises [RuntimeError] at the sum; and after an [add_entry] that
    raised, having left its key behind, the query for the key of the next
    entry returns spaces. *)
Lemma C1_counterexample :
  (∃ s, add_entries (OneHotDB.add_entry securenn_field)
          [(py "bob", py "Hi")] (OneHotDB.init 3 8) = (Ok (), s)
        ∧ NoDup (OneHotDB.keys s)
        ∧ OneHotDB.query securenn_field (py "bob") s = (Ok (py "hi"), s)
        ∧ py "hi" ≠ py "Hi")
  ∧ (∃ s, add_entries (OneHotDB.add_entry securenn_field)
            [(py "bob", py "a.b")] (OneHotDB.init 3 8) = (Ok (), s)
          ∧ NoDup (OneHotDB.keys s)
          ∧ OneHotDB.query securenn_field (py "bob") s = (Ok (py "ab"), s)
          ∧ py "ab" ≠ py "a.b")
  ∧ (∃ s, add_entries (OneHotDB.add_entry securenn_field)
            [(py "bob", py "abcd")] (OneHotDB.init 3 3) = (Ok (), s)
          ∧ NoDup (OneHotDB.keys s)
          ∧ OneHotDB.query securenn_field (py "bob") s = (Ok (py "abc"), s)
          ∧ py "abc" ≠ py "abcd")
  ∧ (∃ s, add_entries (TensorDB.add_entry sample_hash securenn_field)
            [(py "Bob", py "ab"); (py "Bill", py "bcd")] TensorDB.init
          = (Ok (), s)
          ∧ NoDup (TensorDB.keys s)
          ∧ TensorDB.query sample_hash securenn_field (py "Bob") s
            = (Raise RuntimeError, s))
  ∧ (∃ s1 s2,
       TensorDB.add_entry sample_hash securenn_field (py "Bob") [tab]
         TensorDB.init = (Raise KeyError, s1)
       ∧ TensorDB.add_entry sample_hash securenn_field (py "Bill") (py "hi")
           s1 = (Ok (), s2)
       ∧ NoDup (TensorDB.keys s2)
       ∧ TensorDB.query sample_hash securenn_field (py "Bill") s2
         = (Ok (py "  "), s2)
       ∧ py "  " ≠ py "hi").
Proof.
  split; [|split; [|split; [|split]]].
  - eexists. split; [by vm_compute|].
    split; [apply NoDup_singleton|]. split; [by vm_compute|done].
  - eexists. split; [by vm_compute|].
    split; [apply NoDup_singleton|]. split; [by vm_compute|done].
  - eexists. split; [by vm_compute|].
    split; [apply NoDup_singleton|]. split; [by vm_compute|done].
  - eexists. split; [by vm_compute|].
    split; [apply (bool_decide_unpack _); by vm_compute|by vm_compute].
  - do 2 eexists. split; [by vm_compute|]. split; [by vm_compute|].
    split; [apply (bool_decide_unpack _); by vm_compute|].
    split; [by vm_compute|done].
Qed.

(** C1, amended: in a store filled by [add_entry] calls that all
    returned, whose encoded keys are pairwise distinct, [query(key_i)]
    returns, in [TensorDB],
    [value_i] when all stored values have one positive length, and, in
    the one-hot store, [value_i] cut to [max_value_len] characters,
    lowercased and with its full stops removed. *)
Theorem C1_query_stored_key (hash : str → Z) (field : Z) :
  (∀ es s (i : nat) k v,
     add_entries (TensorDB.add_entry hash field) es TensorDB.init
     = (Ok (), s) →
     NoDup (TensorDB.keys s) →
     es !! i = Some (k, v) →
     (∀ e, e ∈ es → length e.2 = length v) → v ≠ [] →
     TensorDB.query hash field k s = (Ok v, s))
  ∧ (∀ es max_key_len max_value_len s (i : nat) k v,
       256 ≤ field →
       add_entries (OneHotDB.add_entry field) es
         (OneHotDB.init max_key_len max_value_len) = (Ok (), s) →
       NoDup (OneHotDB.keys s) →
       es !! i = Some (k, v) →
       (0 < max_value_len)%nat →
       OneHotDB.query field k s
       = (Ok (remove_dots (lower (take max_value_len v))), s)).
Proof.
  split.
  - intros es s i k v Hs Hnd Hi Hlen Hne.
    assert (es ≠ []) as Hes by (intros ->; done).
    assert (0 < length v)%nat as HL by (destruct v; [done|cbn; lia]).
    rewrite tensordb_query_run.
    rewrite (tensordb_final_value hash field es s (length v)) by done.
    apply tensordb_add_entries in Hs as (ts & Hts & Hks & Hvs).
    cbn in Hks, Hvs.
    assert (es.*2 !! i = Some v) as Hvi by by rewrite list_lookup_fmap, Hi.
    destruct (mapM_lookup _ _ _ _ _ Hts Hvi) as (t & Ht & Hti).
    apply tensordb_string2values_codes in Ht as (Hl & Hb & Hd).
    rewrite (matching_unique _ _ _ i t); [|done| |by rewrite Hvs].
    + rewrite <-Hl, (tsum_one (AL:=int64_laws)).
      * cbn. by rewrite Hd.
      * eapply Forall_impl; [done|]. unfold small. cbn. lia.
    + by rewrite Hks, !list_lookup_fmap, Hi.
  - intros es mkl mvl s i k v Hf Hs Hnd Hi Hmvl.
    assert (es ≠ []) as Hes by (intros ->; done).
    pose proof Hs as Hfill.
    apply (onehot_add_entries field Hf)
      in Hfill as (ts & _ & _ & Hks & Hvs & Hal & Hts & _).
    cbn in Hks, Hvs, Hal, Hts.
    assert (es.*1 !! i = Some k) as Hki by by rewrite list_lookup_fmap, Hi.
    assert (es.*2 !! i = Some v) as Hvi by by rewrite list_lookup_fmap, Hi.
    rewrite Forall_lookup in Hal. specialize (Hal i k Hki).
    destruct (Forall2_lookup_l _ _ _ _ _ Hts Hvi) as (t & Hti & Ht).
    apply string2values_codes in Ht as (Hl & Hb & Hd).
    rewrite onehot_query_run.
    rewrite (onehot_final_value field Hf es mkl mvl s) by done.
    rewrite (matching_unique _ _ _ i t); [|done| |by rewrite Hvs].
    + assert (tsum (H:=field_arith field) mvl [t] = t) as ->.
      { rewrite <-Hl. apply (tsum_one (AL:=field_laws field Hf)).
        by apply codes_small. }
      cbn [fmap result_fmap]. by rewrite Hd, remove_dots_truncate_pad.
    + by rewrite Hks, list_lookup_fmap, Hki.
Qed.

Lemma C1_query_stored_key_witness :
  TensorDB.query sample_hash securenn_field (py "Bill") phone_book
  = (Ok (py "(234) 567-8901"), phone_book)
  ∧ OneHotDB.query securenn_field (py "Key") one_hot_book
    = (Ok (remove_dots (lower (take 20 (py "Really Big value.")))),
       one_hot_book).
Proof.
  pose proof (C1_query_stored_key sample_hash securenn_field) as [H1 H2].
  split.
  - apply (H1 [(py "Bob", py "(123) 456-7890");
               (py "Bill", py "(234) 567-8901");
               (py "Sue", py "(345) 678-9012")] phone_book 1%nat).
    + by vm_compute.
    + apply (bool_decide_unpack _). by vm_compute.
    + done.
    + intros e He. repeat (apply elem_of_cons in He as [->|He]; [done|]).
      by apply elem_of_nil in He.
    + done.
  - apply (H2 [(py "Bob", py "(123) 456 7890");
               (py "Bill", py "(234) 567 8901");
               (py "Key", py "Really Big value.")]
              3%nat 20%nat one_hot_book 2%nat).
    + by vm_compute.
    + by vm_compute.
    + apply (bool_decide_unpack _). by vm_compute.
    + done.
    + lia.
Defined.

(** Code 0 is the space in both alphabets, so the zero vector decodes
    to a run of spaces. *)
Lemma zeros_decode_letters L :
  TensorDB.values2string (replicate L 0) = Ok (replicate L space)
  ∧ HashedDB.values2string (replicate L 0) = replicate L space.
Proof.
  assert (int2char TensorDB.T !! 0 = Some space) as H5 by by vm_compute.
  assert (int2char HashedDB.T !! 0 = Some space) as H6 by by vm_compute.
  split.
  - unfold TensorDB.values2string.
    rewrite (mapM_fmap _ (λ _, space)), fmap_replicate; [done|].
    intros x ->%elem_of_replicate_inv. by rewrite H5.
  - unfold HashedDB.values2string, values2string_sentinel.
    by rewrite fmap_replicate, H6.
Qed.

Lemma zeros_decode_lowercase L :
  remove_dots (OneHotDB.values2string (replicate L 0)) = replicate L space.
Proof.
  assert (int2char OneHotDB.T !! 0 = Some space) as H7 by by vm_compute.
  unfold OneHotDB.values2string, values2string_sentinel, remove_dots.
  rewrite fmap_replicate, H7. cbn [default].
  induction L as [|L IH]; [done|]. cbn [replicate].
  by rewrite filter_cons_True, IH.
Qed.

(** C3, as stated, fails on the notebook's own store: the query for a
    key that was never added returns a string, fourteen spaces, which
    holds no sentinel.  Where a stored value is made of spaces, the query
    for an absent key returns that very string. *)
Lemma C3_counterexample :
  ((TensorDB.string2key sample_hash securenn_field (py "hey")
    ∉ TensorDB.keys phone_book)
   ∧ TensorDB.query sample_hash securenn_field (py "hey") phone_book
     = (Ok (py "              "), phone_book)
   ∧ (dot ∉ py "              "))
  ∧ (∃ s, add_entries (TensorDB.add_entry sample_hash securenn_field)
            [(py "Bob", py "  ")] TensorDB.init = (Ok (), s)
          ∧ (TensorDB.string2key sample_hash securenn_field (py "hey")
             ∉ TensorDB.keys s)
          ∧ TensorDB.query sample_hash securenn_field (py "hey") s
            = (Ok (py "  "), s)).
Proof.
  split; [split; [|split]|].
  - apply (bool_decide_unpack _). by vm_compute.
  - by vm_compute.
  - apply (bool_decide_unpack _). by vm_compute.
  - eexists. split; [by vm_compute|].
    split; [apply (bool_decide_unpack _); by vm_compute|by vm_compute].
Qed.

(** C3, amended: in a non-empty store filled by [add_entry] calls
    that all returned, whose values have one positive width, the query
    for a key whose encoding equals no stored key encoding returns that
    many spaces, the decoding of the zero vector: no exception is raised
    and nothing is tried again.  For the hashed store this is with a
    substrate that reveals exactly, and in any iteration order of the
    character set; in the one-hot store the width is [max_value_len] and
    the query is one that encodes. *)
Theorem C3_query_absent_key (hash : str → Z) (field : Z) :
  (∀ es s (L : nat) q,
     add_entries (TensorDB.add_entry hash field) es TensorDB.init
     = (Ok (), s) →
     es ≠ [] → (0 < L)%nat → (∀ e, e ∈ es → length e.2 = L) →
     TensorDB.string2key hash field q ∉ TensorDB.keys s →
     TensorDB.query hash field q s = (Ok (replicate L space), s))
  ∧ (∀ (set_list : str → list ascii) es s (L : nat) q limit n,
       256 ≤ field →
       (∀ r c, c ∈ set_list r ↔ c ∈ r) →
       add_entries (HashedDB.add_entry hash field) es HashedDB.init
       = (Ok (), s) →
       es ≠ [] → (0 < L)%nat → (∀ e, e ∈ es → length e.2 = L) →
       share (H:=field_arith field) (HashedDB.string2key hash field q)
       ∉ HashedDB.keys s →
       HashedDB.query hash field exact_get set_list (S limit) n q s
       = (Ok (replicate L space), s))
  ∧ (∀ es max_key_len max_value_len s q Q,
       256 ≤ field →
       add_entries (OneHotDB.add_entry field) es
         (OneHotDB.init max_key_len max_value_len) = (Ok (), s) →
       es ≠ [] → (0 < max_value_len)%nat →
       OneHotDB.string2one_hot_matrix q max_key_len = Ok Q →
       Q ∉ OneHotDB.keys s →
       OneHotDB.query field q s = (Ok (replicate max_value_len space), s)).
Proof.
  split; [|split].
  - intros es s L q Hs Hne HL Hlen Hq.
    rewrite tensordb_query_run.
    rewrite (tensordb_final_value hash field es s L) by done.
    rewrite matching_none by done. rewrite tsum_nil.
    cbn [mbind result_bind]. by rewrite (proj1 (zeros_decode_letters L)).
  - intros set_list es s L q limit n Hf Hset Hs Hne HL Hlen Hq.
    cbn [HashedDB.query]. unfold mbind at 1 2, M_bind, gets, lift. cbn [id].
    unfold HashedDB.attempt.
    rewrite (hashed_final_value hash field Hf es s L) by done.
    rewrite matching_none by done. rewrite tsum_nil.
    cbn [mbind result_bind]. unfold exact_get.
    rewrite (proj2 (zeros_decode_letters L)).
    destruct (set_list (replicate L space)) as [|c cs] eqn:Hsl.
    + exfalso. destruct L; [lia|].
      assert (space ∈ set_list (replicate (S L) space)) as Hin
        by (apply Hset; apply list_elem_of_here).
      rewrite Hsl in Hin. by apply elem_of_nil in Hin.
    + assert (c = space) as ->.
      { assert (c ∈ set_list (replicate L space)) as Hin
          by (rewrite Hsl; apply list_elem_of_here).
        apply (proj1 (Hset _ _)) in Hin.
        by apply elem_of_replicate_inv in Hin. }
      cbn. by rewrite bool_decide_false.
  - intros es mkl mvl s q Q Hf Hs Hne Hmvl HQ Hq.
    apply string2one_hot_matrix_inv in HQ as (_ & HQ & ->).
    rewrite onehot_query_run.
    rewrite (onehot_final_value field Hf es mkl mvl s) by done.
    rewrite matching_none by done. rewrite tsum_nil.
    cbn [fmap result_fmap]. by rewrite zeros_decode_lowercase.
Qed.

Lemma C3_query_absent_key_witness :
  TensorDB.query sample_hash securenn_field (py "hey") phone_book
  = (Ok (replicate 14 space), phone_book)
  ∧ HashedDB.query sample_hash securenn_field exact_get remove_dups 1 0
      (py "Zoe") shared_book
    = (Ok (replicate 14 space), shared_book)
  ∧ OneHotDB.query securenn_field (py "Not a Person") one_hot_book
    = (Ok (replicate 20 space), one_hot_book).
Proof.
  pose proof (C3_query_absent_key sample_hash securenn_field)
    as (H1 & H2 & H3).
  split; [|split].
  - apply (H1 [(py "Bob", py "(123) 456-7890");
               (py "Bill", py "(234) 567-8901");
               (py "Sue", py "(345) 678-9012")]).
    + by vm_compute.
    + done.
    + lia.
    + intros e He. repeat (apply elem_of_cons in He as [->|He]; [done|]).
      by apply elem_of_nil in He.
    + apply (bool_decide_unpack _). by vm_compute.
  - apply (H2 remove_dups
              [(py "Bob", py "(123) 456-7890");
               (py "Bill", py "(234) 567-8901");
               (py "Sam", py "(345) 678-9012")]).
    + by vm_compute.
    + intros r c. apply elem_of_remove_dups.
    + by vm_compute.
    + done.
    + lia.
    + intros e He. repeat (apply elem_of_cons in He as [->|He]; [done|]).
      by apply elem_of_nil in He.
    + apply (bool_decide_unpack _). by vm_compute.
  - apply (H3 [(py "Bob", py "(123) 456 7890");
               (py "Bill", py "(234) 567 8901");
               (py "Key", py "Really Big value.")]
              3%nat 20%nat one_hot_book (py "Not a Person") (rows (py "not"))).
    + by vm_compute.
    + by vm_compute.
    + done.
    + lia.
    + by vm_compute.
    + apply (bool_decide_unpack _). by vm_compute.
Defined.

(** ** Retrying *)

(** C2, as stated, fails: on a store whose value is made of full
    stops the exact substrate decodes the sentinel on every run, and
    whatever the number of frames the interpreter allows, [query] uses
    them all and ends in [RecursionError]; no retry ceiling stops it. *)
Lemma C2_counterexample :
  ¬ ∃ max_retries : nat, ∀ limit : nat,
      (max_retries < limit)%nat →
      (HashedDB.query sample_hash securenn_field exact_get remove_dups
         limit 0 (py "Bob") shared_dots).1
      ≠ Raise RecursionError.
Proof.
  intros [B HB]. apply (HB (S B)); [lia|].
  rewrite hashed_query_exhausts; [done|].
  intros i _. exists (py "..."). by vm_compute.
Qed.

(** C2, amended: [query] runs the protocol again each time the first
    element of the decoded string's character set is the sentinel, as it
    always is when the decode is all sentinels, with no ceiling of its
    own: it returns the result of the first run that is not so, raises
    what that run raises, and when every run the interpreter's recursion
    limit allows decodes the sentinel first it ends in
    [RecursionError]. *)
Theorem C2_query_retries
    (hash : str → Z) (field : Z) (get : nat → tensor → tensor)
    (set_list : str → list ascii) (q : str) (s : HashedDB.state) (n : nat) :
  let run i := HashedDB.attempt hash field get set_list (n + i) s q in
  let query limit := HashedDB.query hash field get set_list limit n q s in
  (∀ limit,
     (∀ i, (i < limit)%nat → ∃ r, run i = Ok (r, true)) →
     query limit = (Raise RecursionError, s))
  ∧ (∀ limit m r,
       (m < limit)%nat →
       (∀ i, (i < m)%nat → ∃ r', run i = Ok (r', true)) →
       run m = Ok (r, false) →
       query limit = (Ok r, s))
  ∧ (∀ limit m e,
       (m < limit)%nat →
       (∀ i, (i < m)%nat → ∃ r', run i = Ok (r', true)) →
       run m = Raise e →
       query limit = (Raise e, s))
  ∧ (∀ (i : nat) fv (L : nat),
       (∀ r c, c ∈ set_list r ↔ c ∈ r) →
       HashedDB.final_value hash field s q = Ok fv →
       HashedDB.values2string (get (n + i)%nat fv) = replicate (S L) dot →
       run i = Ok (replicate (S L) dot, true)).
Proof.
  intros run query. split; [|split; [|split]].
  - intros limit Hall. by apply hashed_query_exhausts.
  - intros limit m r Hm Hall Hr.
    apply (hashed_query_first _ _ _ _ limit n m); [done..| |].
    + fold (run m). by rewrite Hr.
    + fold (run m). rewrite Hr. by intros r' [= _].
  - intros limit m e Hm Hall He.
    apply (hashed_query_first _ _ _ _ limit n m); [done..| |].
    + fold (run m). by rewrite He.
    + fold (run m). by rewrite He.
  - intros i fv L Hset Hfv Hdec.
    by apply (hashed_attempt_all_sentinel _ _ _ _ _ _ _ fv).
Qed.

Lemma C2_query_retries_witness :
  HashedDB.query sample_hash securenn_field exact_get remove_dups 5 0
    (py "Bob") shared_dots
  = (Raise RecursionError, shared_dots)
  ∧ HashedDB.query sample_hash securenn_field garbled_once first_seen 5 0
      (py "Bob") shared_book
    = (Ok (py "(123) 456-7890"), shared_book)
  ∧ HashedDB.query sample_hash securenn_field exact_get remove_dups 5 0
      (py "Bob") HashedDB.init
    = (Raise IndexError, HashedDB.init)
  ∧ HashedDB.attempt sample_hash securenn_field exact_get remove_dups 0
      shared_dots (py "Bob")
    = Ok (replicate 3 dot, true).
Proof.
  split; [|split; [|split]].
  - apply (proj1 (C2_query_retries sample_hash securenn_field exact_get
                    remove_dups (py "Bob") shared_dots 0)).
    intros i _. exists (py "..."). by vm_compute.
  - apply (proj1 (proj2 (C2_query_retries sample_hash securenn_field
                           garbled_once first_seen (py "Bob") shared_book 0))
             5%nat 1%nat).
    + lia.
    + intros i Hi. assert (i = 0%nat) as -> by lia.
      exists (py "..... ........"). by vm_compute.
    + by vm_compute.
  - apply (proj1 (proj2 (proj2 (C2_query_retries sample_hash securenn_field
                                  exact_get remove_dups (py "Bob")
                                  HashedDB.init 0)))
             5%nat 0%nat).
    + lia.
    + intros i Hi. lia.
    + by vm_compute.
  - apply (proj2 (proj2 (proj2 (C2_query_retries sample_hash securenn_field
                                  exact_get remove_dups (py "Bob")
                                  shared_dots 0)))
             0%nat [76; 76; 76] 2%nat).
    + intros r c. apply elem_of_remove_dups.
    + by vm_compute.
    + by vm_compute.
Defined.

(** * Further properties of the notebook's code *)

(** ** The tables, read backwards *)

Section TablesBack.

Implicit Types (t : tables) (l : str) (c : ascii) (i : Z).

Lemma int2char_position l i c :
  int2char (make_tables l) !! i = Some c →
  ∃ j, i = Z.of_nat j ∧ l !! j = Some c.
Proof.
  intros H. apply fold_fill_int2char in H as [H|(j & -> & Hj)]; [|eauto].
  simpl in H. by rewrite lookup_empty in H.
Qed.

Lemma fold_fill_int2char_old l : ∀ n t i,
  i < Z.of_nat n →
  int2char (fold_left fill (enumerate_from n l) t) !! i = int2char t !! i.
Proof.
  induction l as [|a l IH]; intros n t i Hi; [done|].
  cbn [enumerate_from fold_left]. rewrite IH by lia.
  cbn. rewrite lookup_insert_ne; [done|lia].
Qed.

Lemma fold_fill_int2char_new l : ∀ n t (j : nat) c,
  l !! j = Some c →
  int2char (fold_left fill (enumerate_from n l) t) !! Z.of_nat (n + j)
  = Some c.
Proof.
  induction l as [|a l IH]; intros n t j c Hj; [done|].
  cbn [enumerate_from fold_left]. destruct j as [|j].
  - injection Hj as ->. rewrite Nat.add_0_r.
    rewrite fold_fill_int2char_old by lia. cbn. by rewrite lookup_insert_eq.
  - replace (n + S j)%nat with (S n + j)%nat by lia. by apply IH.
Qed.

(** The codes of the table are the positions of the alphabet. *)
Lemma int2char_is_Some l i :
  is_Some (int2char (make_tables l) !! i) ↔ 0 ≤ i < Z.of_nat (length l).
Proof.
  split.
  - intros [c Hc]. apply int2char_position in Hc as (j & -> & Hj).
    apply lookup_lt_Some in Hj. lia.
  - intros Hi. destruct (lookup_lt_is_Some_2 l (Z.to_nat i)) as [c Hc]; [lia|].
    exists c. unfold make_tables, enumerate.
    rewrite <-(Z2Nat.id i) by lia.
    by apply (fold_fill_int2char_new l 0 _ (Z.to_nat i)).
Qed.

(** In an alphabet without repetition a code's character has that
    code. *)
Lemma int2char_char2int l i c :
  NoDup l →
  int2char (make_tables l) !! i = Some c →
  char2int (make_tables l) !! c = Some i.
Proof.
  intros Hnd Hi. apply int2char_position in Hi as (j & -> & Hj).
  destruct (proj2 (char2int_dom l c)) as [i' Hi'].
  { by eapply list_elem_of_lookup_2. }
  destruct (char2int_position _ _ _ Hi') as (j' & -> & Hj').
  by rewrite (NoDup_lookup l j j' c).
Qed.

Lemma decode_encode l (t : tensor) (s : str) :
  NoDup l →
  mapM (λ x, of_option KeyError (int2char (make_tables l) !! x)) t = Ok s →
  mapM (λ char, of_option KeyError (char2int (make_tables l) !! char)) s
  = Ok t.
Proof.
  intros Hnd. revert s. induction t as [|x t IH]; intros s.
  - by intros [= <-].
  - rewrite mapM_cons.
    destruct (int2char (make_tables l) !! x) as [c|] eqn:Hx; [|done].
    cbn [of_option mbind result_bind].
    destruct (mapM _ t) as [s'|] eqn:Ht; [|done]. intros [= <-].
    rewrite mapM_cons, (int2char_char2int _ _ _ Hnd Hx).
    cbn [of_option mbind result_bind]. by rewrite (IH s').
Qed.

Lemma decode_total l (t : tensor) :
  Forall (λ x, 0 ≤ x < Z.of_nat (length l)) t →
  ∃ s, mapM (λ x, of_option KeyError (int2char (make_tables l) !! x)) t = Ok s.
Proof.
  induction 1 as [|x t Hx _ [s IH]]; [by eexists|].
  apply int2char_is_Some in Hx as [c Hc].
  rewrite mapM_cons, Hc, IH. by eexists.
Qed.

Lemma decode_raise l (t : tensor) :
  ¬ Forall (λ x, 0 ≤ x < Z.of_nat (length l)) t →
  mapM (λ x, of_option KeyError (int2char (make_tables l) !! x)) t
  = Raise KeyError.
Proof.
  intros Ht. apply not_Forall_Exists in Ht; [|apply _].
  apply Exists_exists in Ht as (x & Hx & Hout).
  apply (mapM_raise _ _ x); [done| |].
  - intros y _. destruct (int2char _ !! y); cbn; eauto.
  - destruct (int2char (make_tables l) !! x) eqn:Hl; [|done].
    exfalso. apply Hout, int2char_is_Some. by eexists.
Qed.

Lemma alphabet_letters_NoDup : NoDup alphabet_letters.
Proof. apply (bool_decide_unpack _). by vm_compute. Qed.

Lemma alphabet_lowercase_NoDup : NoDup alphabet_lowercase.
Proof. apply (bool_decide_unpack _). by vm_compute. Qed.

End TablesBack.

(** ** The encoders and decoders of Sections 2, 5 and 6 *)

(** X1: in [TensorDB], decoding the codes of a string gives the
    string back, with one code below 95 for each character, and encoding
    a decoded string gives the codes back. *)
Theorem X1_tensordb_codec_round_trip (s : str) (t : tensor) :
  (TensorDB.string2values s = Ok t →
   TensorDB.values2string t = Ok s
   ∧ length t = length s ∧ Forall (λ x, 0 ≤ x < 95) t)
  ∧ (TensorDB.values2string t = Ok s → TensorDB.string2values s = Ok t).
Proof.
  split.
  - intros Hs. apply tensordb_string2values_codes in Hs as (Hl & Hb & Hd).
    done.
  - unfold TensorDB.string2values, TensorDB.values2string.
    change TensorDB.T with (make_tables alphabet_letters).
    apply decode_encode, alphabet_letters_NoDup.
Qed.

Lemma X1_tensordb_codec_round_trip_witness :
  (TensorDB.values2string [8; 5; 12; 12; 15] = Ok (py "hello")
   ∧ length [8; 5; 12; 12; 15] = length (py "hello")
   ∧ Forall (λ x, 0 ≤ x < 95) [8; 5; 12; 12; 15])
  ∧ TensorDB.string2values (py "hello") = Ok [8; 5; 12; 12; 15].
Proof.
  pose proof (X1_tensordb_codec_round_trip (py "hello") [8; 5; 12; 12; 15])
    as [H1 H2].
  split.
  - apply H1. by vm_compute.
  - apply H2. by vm_compute.
Defined.

(** X2: [string2values] of Sections 2, 5 and 6 returns exactly when
    every character of the string is in the alphabet of 95 characters,
    and raises [KeyError] otherwise; the empty string encodes to the
    empty tensor. *)
Theorem X2_string2values_errors (s : str) :
  (Forall (λ c, c ∈ alphabet_letters) s
   ↔ ∃ t, TensorDB.string2values s = Ok t)
  ∧ (¬ Forall (λ c, c ∈ alphabet_letters) s
     ↔ TensorDB.string2values s = Raise KeyError)
  ∧ HashedDB.string2values s = TensorDB.string2values s
  ∧ TensorDB.string2values [] = Ok [].
Proof.
  split; [|split; [|split]]; [| |done..].
  - split; [apply tensordb_string2values_ok|]. intros [t Ht].
    destruct (decide (Forall (λ c, c ∈ alphabet_letters) s)) as [|Hn]; [done|].
    rewrite (tensordb_string2values_raise s Hn) in Ht. done.
  - split; [apply tensordb_string2values_raise|]. intros Hr Hs.
    destruct (tensordb_string2values_ok s Hs) as [t Ht]. congruence.
Qed.

(** X3: [values2string] of Sections 2 and 5 returns exactly when
    every code is one of the 95 codes of the table, with one character
    for each code, and raises [KeyError] otherwise. *)
Theorem X3_values2string_errors (t : tensor) :
  (Forall (λ x, 0 ≤ x < 95) t
   ↔ ∃ s, TensorDB.values2string t = Ok s ∧ length s = length t)
  ∧ (¬ Forall (λ x, 0 ≤ x < 95) t
     ↔ TensorDB.values2string t = Raise KeyError).
Proof.
  assert (¬ Forall (λ x, 0 ≤ x < 95) t
          → TensorDB.values2string t = Raise KeyError) as Hraise.
  { unfold TensorDB.values2string.
    change TensorDB.T with (make_tables alphabet_letters).
    apply (decode_raise alphabet_letters). }
  assert (Forall (λ x, 0 ≤ x < 95) t
          → ∃ s, TensorDB.values2string t = Ok s ∧ length s = length t)
    as Hok.
  { intros Ht. unfold TensorDB.values2string.
    change TensorDB.T with (make_tables alphabet_letters).
    destruct (decode_total alphabet_letters t Ht) as [s Hs].
    exists s. split; [done|]. by apply mapM_length in Hs. }
  split.
  - split; [done|]. intros (s & Hs & _).
    destruct (decide (Forall (λ x, 0 ≤ x < 95) t)) as [|Hn]; [done|].
    rewrite (Hraise Hn) in Hs. done.
  - split; [done|]. intros Hr Ht. destruct (Hok Ht) as (s & Hs & _).
    congruence.
Qed.

(** X4: [values2string] of Section 6 never raises: it gives one
    character for each code, the same as the decoder of Section 5
    wherever that one returns, and the sentinel at every code outside the
    table; the sentinel is also the character of code 76, so a stored
    full stop and a garbled entry decode alike. *)
Theorem X4_values2string_sentinel (t : tensor) :
  length (HashedDB.values2string t) = length t
  ∧ (∀ s, TensorDB.values2string t = Ok s → HashedDB.values2string t = s)
  ∧ (∀ (i : nat) x, t !! i = Some x → ¬ (0 ≤ x < 95) →
       HashedDB.values2string t !! i = Some dot)
  ∧ (∀ (i : nat), t !! i = Some 76 →
       HashedDB.values2string t !! i = Some dot).
Proof.
  unfold HashedDB.values2string, values2string_sentinel.
  split; [by rewrite length_fmap|]. split; [|split].
  - unfold TensorDB.values2string.
    change TensorDB.T with HashedDB.T.
    induction t as [|x t IH]; intros s; [by intros [= <-]|].
    rewrite mapM_cons.
    destruct (int2char HashedDB.T !! x) as [c|] eqn:Hx; [|done].
    cbn [of_option mbind result_bind].
    destruct (mapM _ t) as [s'|]; [|done]. intros [= <-].
    cbn [fmap list_fmap]. rewrite Hx. cbn [default]. f_equal. by apply IH.
  - intros i x Hi Hout. rewrite list_lookup_fmap, Hi. cbn. f_equal.
    destruct (int2char HashedDB.T !! x) as [c|] eqn:Hx; [|done].
    exfalso. apply Hout.
    change HashedDB.T with (make_tables alphabet_letters) in Hx.
    by apply (proj1 (int2char_is_Some alphabet_letters x)); eexists.
  - assert (int2char HashedDB.T !! 76 = Some dot) as H76 by by vm_compute.
    intros i Hi. rewrite list_lookup_fmap, Hi.
    cbn [fmap option_fmap option_map]. by rewrite H76.
Qed.

Lemma X4_values2string_sentinel_witness :
  HashedDB.values2string [8; 9; 76; -1; 95] = py "hi..."
  ∧ HashedDB.values2string [8; 9; 76; -1; 95] !! 3%nat = Some dot
  ∧ HashedDB.values2string [8; 9; 76; -1; 95] !! 2%nat = Some dot.
Proof.
  pose proof (X4_values2string_sentinel [8; 9; 76; -1; 95])
    as (_ & _ & H3 & H4).
  split; [by vm_compute|]. split.
  - apply (H3 3%nat (-1)); [done|lia].
  - by apply (H4 2%nat).
Defined.

(** ** [TensorDB]: what [add_entry] and [query] do beyond the claims *)

Section TensorDB_more.

Variable hash : str → Z.
Variable field : Z.

Local Existing Instance int64_arith.

Abbreviation t_string2key := (TensorDB.string2key hash field).
Abbreviation t_add_entry := (TensorDB.add_entry hash field).
Abbreviation t_query := (TensorDB.query hash field).
Abbreviation t_final_value := (TensorDB.final_value hash field).

Implicit Types (s : TensorDB.state) (es : list (str * str)).



End TensorDB_more.

(** X5: [TensorDB.add_entry] returns exactly when the value is over
    the alphabet, having appended the key and the value's codes; on any
    other value it raises [KeyError] after the key has been appended, so
    that [keys] is left one longer than [values] was grown. *)
Theorem X5_tensordb_add_entry
    (hash : str → Z) (field : Z) (k v : str) (s : TensorDB.state) :
  (Forall (λ c, c ∈ alphabet_letters) v →
   ∃ t, TensorDB.string2values v = Ok t
        ∧ TensorDB.add_entry hash field k v s
          = (Ok (),
             {| TensorDB.keys :=
                  TensorDB.keys s ++ [TensorDB.string2key hash field k];
                TensorDB.values := TensorDB.values s ++ [t] |}))
  ∧ (¬ Forall (λ c, c ∈ alphabet_letters) v →
     TensorDB.add_entry hash field k v s
     = (Raise KeyError,
        {| TensorDB.keys :=
             TensorDB.keys s ++ [TensorDB.string2key hash field k];
           TensorDB.values := TensorDB.values s |})).
Proof.
  split.
  - intros Hv. destruct (tensordb_string2values_ok v Hv) as [t Ht].
    exists t. split; [done|]. by apply tensordb_add_entry_ok.
  - intros Hv. by apply tensordb_add_entry_raise, tensordb_string2values_raise.
Qed.

Lemma X5_tensordb_add_entry_witness :
  (∃ t, TensorDB.string2values (py "hi") = Ok t
        ∧ TensorDB.add_entry sample_hash securenn_field (py "Bob") (py "hi")
            phone_book
          = (Ok (),
             {| TensorDB.keys :=
                  TensorDB.keys phone_book
                  ++ [TensorDB.string2key sample_hash securenn_field
                        (py "Bob")];
                TensorDB.values := TensorDB.values phone_book ++ [t] |}))
  ∧ TensorDB.add_entry sample_hash securenn_field (py "Bob") [tab] phone_book
    = (Raise KeyError,
       {| TensorDB.keys :=
            TensorDB.keys phone_book
            ++ [TensorDB.string2key sample_hash securenn_field (py "Bob")];
          TensorDB.values := TensorDB.values phone_book |}).
Proof.
  split.
  - apply (proj1 (X5_tensordb_add_entry sample_hash securenn_field
                    (py "Bob") (py "hi") phone_book)).
    apply (bool_decide_unpack _). by vm_compute.
  - apply (proj2 (X5_tensordb_add_entry sample_hash securenn_field
                    (py "Bob") [tab] phone_book)).
    apply (bool_decide_unpack _). by vm_compute.
Defined.

(** X6: in [TensorDB], once an [add_entry] has raised, the key it
    left behind takes the next value: after a failed
    [add_entry(k1, bad)] on a new store and a successful
    [add_entry(k2, v2)], the query for [k1] returns [v2] and the query for
    [k2] returns spaces. *)
Theorem X6_tensordb_orphan_key
    (hash : str → Z) (field : Z) (k1 bad k2 v2 : str) :
  ¬ Forall (λ c, c ∈ alphabet_letters) bad →
  Forall (λ c, c ∈ alphabet_letters) v2 →
  v2 ≠ [] →
  TensorDB.string2key hash field k1 ≠ TensorDB.string2key hash field k2 →
  let s1 := (TensorDB.add_entry hash field k1 bad TensorDB.init).2 in
  let s2 := (TensorDB.add_entry hash field k2 v2 s1).2 in
  (TensorDB.add_entry hash field k1 bad TensorDB.init).1 = Raise KeyError
  ∧ (TensorDB.add_entry hash field k2 v2 s1).1 = Ok ()
  ∧ TensorDB.query hash field k1 s2 = (Ok v2, s2)
  ∧ TensorDB.query hash field k2 s2 = (Ok (replicate (length v2) space), s2).
Proof.
  intros Hbad Hv2 Hne Hk s1 s2.
  destruct (tensordb_string2values_ok v2 Hv2) as [t Ht].
  pose proof (tensordb_string2values_raise bad Hbad) as Hr.
  assert (s1 = {| TensorDB.keys := [TensorDB.string2key hash field k1];
                  TensorDB.values := [] |}) as Hs1.
  { unfold s1. by rewrite (tensordb_add_entry_raise _ _ _ _ KeyError). }
  assert (s2 = {| TensorDB.keys := [TensorDB.string2key hash field k1;
                                    TensorDB.string2key hash field k2];
                  TensorDB.values := [t] |}) as Hs2.
  { unfold s2. rewrite (tensordb_add_entry_ok _ _ _ _ t) by done.
    by rewrite Hs1. }
  split; [by rewrite (tensordb_add_entry_raise _ _ _ _ KeyError)|].
  split; [by rewrite (tensordb_add_entry_ok _ _ _ _ t)|].
  apply tensordb_string2values_codes in Ht as (Hl & Hb & Hd).
  assert (t ≠ []) as Hnet by (intros ->; by destruct v2).
  assert (Forall small t) as Hsm.
  { eapply Forall_impl; [done|]. unfold small. cbn. lia. }
  rewrite !tensordb_query_run. rewrite Hs2.
  unfold TensorDB.final_value, select.
  cbn [TensorDB.keys TensorDB.values].
  split.
  - rewrite (mapM_fmap _ (λ key, [bit (is_key (TensorDB.string2key hash field k1)
                                             key)])).
    2:{ intros key [->| ->%list_elem_of_singleton]%elem_of_cons;
          apply tensordb_teq. }
    cbn [mbind result_bind fmap list_fmap]. unfold enumerate.
    change (enumerate_from 0 [t]) with [(0%nat, t)].
    rewrite mapM_cons, (mask_lookup (AL:=int64_laws) _ _ _ true); [|..|done];
      [|unfold is_key; by rewrite bool_decide_true|done].
    cbn [mapM mbind result_bind mret result_ret sum_values foldM masked].
    by rewrite Hd.
  - rewrite (mapM_fmap _ (λ key, [bit (is_key (TensorDB.string2key hash field k2)
                                             key)])).
    2:{ intros key [->| ->%list_elem_of_singleton]%elem_of_cons;
          apply tensordb_teq. }
    cbn [mbind result_bind fmap list_fmap]. unfold enumerate.
    change (enumerate_from 0 [t]) with [(0%nat, t)].
    rewrite mapM_cons, (mask_lookup (AL:=int64_laws) _ _ _ false); [|..|done];
      [|unfold is_key; by rewrite bool_decide_false|done].
    cbn [mapM mbind result_bind mret result_ret sum_values foldM masked].
    rewrite Hl. by rewrite (proj1 (zeros_decode_letters (length v2))).
Qed.

Lemma X6_tensordb_orphan_key_witness :
  let s1 := (TensorDB.add_entry sample_hash securenn_field (py "Bob") [tab]
               TensorDB.init).2 in
  let s2 := (TensorDB.add_entry sample_hash securenn_field (py "Bill")
               (py "(234) 567-8901") s1).2 in
  (TensorDB.add_entry sample_hash securenn_field (py "Bob") [tab]
     TensorDB.init).1 = Raise KeyError
  ∧ (TensorDB.add_entry sample_hash securenn_field (py "Bill")
       (py "(234) 567-8901") s1).1 = Ok ()
  ∧ TensorDB.query sample_hash securenn_field (py "Bob") s2
    = (Ok (py "(234) 567-8901"), s2)
  ∧ TensorDB.query sample_hash securenn_field (py "Bill") s2
    = (Ok (replicate (length (py "(234) 567-8901")) space), s2).
Proof.
  apply (X6_tensordb_orphan_key sample_hash securenn_field
           (py "Bob") [tab] (py "Bill") (py "(234) 567-8901")).
  - apply (bool_decide_unpack _). by vm_compute.
  - apply (bool_decide_unpack _). by vm_compute.
  - done.
  - by vm_compute.
Defined.



(** The aggregate of two entries under one encoded key. *)
Lemma tensordb_final_value_two
    (hash : str → Z) (field : Z) k1 v1 k2 v2 s (t1 t2 : tensor) :
  add_entries (TensorDB.add_entry hash field) [(k1, v1); (k2, v2)]
    TensorDB.init = (Ok (), s) →
  TensorDB.string2key hash field k1 = TensorDB.string2key hash field k2 →
  TensorDB.values s = [t1; t2] →
  length v1 = length v2 → v1 ≠ [] →
  TensorDB.final_value hash field s k1 = Ok (zip_with Z.add t1 t2).
Proof.
  intros Hs Hk Hv Hl Hne.
  rewrite (tensordb_final_value hash field _ s (length v1)) by
    (done || (destruct v1; [done|cbn; lia])
     || by intros e [->| ->%list_elem_of_singleton]%elem_of_cons).
  apply tensordb_add_entries in Hs as (ts & Hts & Hks & Hvs).
  cbn in Hks, Hvs. change ([(k1, v1); (k2, v2)].*2) with [v1; v2] in Hts.
  rewrite Hks, Hvs. rewrite Hv in Hvs. subst ts.
  rewrite Hk.
  change (matching _ _ _)
    with (matching (is_key (TensorDB.string2key hash field k2))
            [TensorDB.string2key hash field k2;
             TensorDB.string2key hash field k2] [t1; t2]).
  rewrite matching_both.
  destruct (mapM_lookup _ _ _ 0%nat v1 Hts eq_refl) as (? & H1 & [= <-]).
  destruct (mapM_lookup _ _ _ 1%nat v2 Hts eq_refl) as (? & H2 & [= <-]).
  apply tensordb_string2values_codes in H1 as (Hl1 & Hb1 & _).
  apply tensordb_string2values_codes in H2 as (Hl2 & Hb2 & _).
  rewrite <-Hl1. f_equal.
  apply (tsum_two (AL:=int64_laws)); [lia|..];
    (eapply Forall_impl; [done|]; cbn; lia).
Qed.

(** X8: in a [TensorDB] filled with exactly two entries, of equal
    length and under one encoded key, when at some position their codes
    add up to 95 or more the query for that key raises [KeyError]: the
    sum is not a code of the table. *)
Theorem X8_tensordb_duplicate_overflow
    (hash : str → Z) (field : Z) (k1 v1 k2 v2 : str) (s : TensorDB.state)
    (t1 t2 : tensor) (i : nat) (x y : Z) :
  add_entries (TensorDB.add_entry hash field) [(k1, v1); (k2, v2)]
    TensorDB.init = (Ok (), s) →
  TensorDB.string2key hash field k1 = TensorDB.string2key hash field k2 →
  TensorDB.values s = [t1; t2] →
  length v1 = length v2 →
  t1 !! i = Some x → t2 !! i = Some y → 95 ≤ x + y →
  TensorDB.query hash field k1 s = (Raise KeyError, s).
Proof.
  intros Hs Hk Hv Hl Hx Hy Hxy.
  assert (v1 ≠ []) as Hne.
  { intros ->. apply tensordb_add_entries in Hs as (ts & Hts & _ & Hvs).
    cbn in Hvs. rewrite Hv in Hvs. subst ts.
    change ([(k1, []); (k2, v2)].*2) with [[]; v2] in Hts.
    destruct (mapM_lookup _ _ _ 0%nat [] Hts eq_refl) as (? & H1 & [= <-]).
    injection H1 as <-. done. }
  rewrite tensordb_query_run.
  rewrite (tensordb_final_value_two hash field k1 v1 k2 v2 s t1 t2) by done.
  cbn [mbind result_bind]. f_equal. unfold TensorDB.values2string.
  change TensorDB.T with (make_tables alphabet_letters).
  apply decode_raise. intros Hall.
  rewrite Forall_lookup in Hall.
  specialize (Hall i (x + y)). rewrite lookup_zip_with, Hx, Hy in Hall.
  specialize (Hall eq_refl).
  change (Z.of_nat (length alphabet_letters)) with 95 in Hall. lia.
Qed.

Lemma X8_tensordb_duplicate_overflow_witness :
  let s := (add_entries (TensorDB.add_entry sample_hash securenn_field)
              [(py "Bob", py "a~"); (py "Bob", py "b~")] TensorDB.init).2 in
  TensorDB.query sample_hash securenn_field (py "Bob") s
  = (Raise KeyError, s).
Proof.
  intros s.
  apply (X8_tensordb_duplicate_overflow sample_hash securenn_field
           (py "Bob") (py "a~") (py "Bob") (py "b~") s [1; 94] [2; 94]
           1%nat 94 94).
  - by vm_compute.
  - done.
  - by vm_compute.
  - done.
  - done.
  - done.
  - lia.
Defined.

(** ** The hashed [DecentralizedDB] on a stored key *)

(** One run of the protocol for a stored key, on a substrate that
    reveals exactly: the stored value is decoded. *)
Lemma hashed_attempt_stored
    (hash : str → Z) (field : Z) (set_list : str → list ascii)
    (es : list (str * str)) (s : HashedDB.state) (i : nat) (k v : str)
    (n : nat) :
  256 ≤ field →
  add_entries (HashedDB.add_entry hash field) es HashedDB.init = (Ok (), s) →
  NoDup (HashedDB.keys s) →
  es !! i = Some (k, v) →
  (∀ e, e ∈ es → length e.2 = length v) → v ≠ [] →
  HashedDB.attempt hash field exact_get set_list n s k
  = (first ← of_option IndexError (head (set_list v));
     mret (v, bool_decide (first = dot))).
Proof.
  intros Hf Hs Hnd Hi Hlen Hne.
  assert (es ≠ []) as Hes by (intros ->; done).
  assert (0 < length v)%nat as HL by (destruct v; [done|cbn; lia]).
  unfold HashedDB.attempt.
  rewrite (hashed_final_value hash field Hf es s (length v)) by done.
  apply (hashed_add_entries hash field Hf) in Hs as (ts & Hts & Hks & Hvs).
  cbn in Hks, Hvs.
  assert (es.*2 !! i = Some v) as Hvi by by rewrite list_lookup_fmap, Hi.
  destruct (Forall2_lookup_l _ _ _ _ _ Hts Hvi) as (t & Hti & Ht).
  apply hashed_string2values_codes in Ht as (Hl & Hb & Hd).
  rewrite (matching_unique _ _ _ i t); [|done| |by rewrite Hvs].
  - rewrite <-Hl, (tsum_one (AL:=field_laws field Hf)).
    + cbn [mbind result_bind]. unfold exact_get. by rewrite Hd.
    + eapply Forall_impl; [done|]. unfold small. cbn. lia.
  - by rewrite Hks, !list_lookup_fmap, Hi.
Qed.

(** X9: in the hashed [DecentralizedDB] on an exactly revealing
    substrate, with pairwise-distinct stored key encodings and values of
    one positive length, the query for a stored key returns its value at
    the first run whenever the character set of the value does not list
    the full stop first, as is the case, in any order, when the value
    holds no full stop. *)
Theorem X9_hashed_query_stored
    (hash : str → Z) (field : Z) (set_list : str → list ascii)
    (es : list (str * str)) (s : HashedDB.state) (i : nat) (k v : str)
    (limit n : nat) :
  256 ≤ field →
  add_entries (HashedDB.add_entry hash field) es HashedDB.init = (Ok (), s) →
  NoDup (HashedDB.keys s) →
  es !! i = Some (k, v) →
  (∀ e, e ∈ es → length e.2 = length v) → v ≠ [] →
  (∀ c, head (set_list v) = Some c → c ≠ dot →
     HashedDB.query hash field exact_get set_list (S limit) n k s = (Ok v, s))
  ∧ ((∀ r c, c ∈ set_list r ↔ c ∈ r) → dot ∉ v →
     HashedDB.query hash field exact_get set_list (S limit) n k s = (Ok v, s)).
Proof.
  intros Hf Hs Hnd Hi Hlen Hne.
  assert (∀ c, head (set_list v) = Some c → c ≠ dot →
            HashedDB.query hash field exact_get set_list (S limit) n k s
            = (Ok v, s)) as Hhead.
  { intros c Hc Hdot. cbn [HashedDB.query].
    unfold mbind at 1 2, M_bind, gets, lift. cbn [id].
    rewrite (hashed_attempt_stored hash field set_list es s i k v) by done.
    rewrite Hc. cbn. by rewrite bool_decide_false. }
  split; [done|]. intros Hset Hdot.
  destruct (set_list v) as [|c cs] eqn:Hsl.
  - exfalso. destruct v as [|c v]; [done|].
    assert (c ∈ set_list (c :: v)) as Hin
      by (apply Hset; apply list_elem_of_here).
    rewrite Hsl in Hin. by apply elem_of_nil in Hin.
  - apply (Hhead c); [by rewrite ?Hsl|]. intros ->. apply Hdot, Hset.
    rewrite Hsl. apply list_elem_of_here.
Qed.

Lemma X9_hashed_query_stored_witness :
  HashedDB.query sample_hash securenn_field exact_get remove_dups 1 0
    (py "Bill") shared_book
  = (Ok (py "(234) 567-8901"), shared_book).
Proof.
  apply (proj2 (X9_hashed_query_stored sample_hash securenn_field remove_dups
                  [(py "Bob", py "(123) 456-7890");
                   (py "Bill", py "(234) 567-8901");
                   (py "Sam", py "(345) 678-9012")]
                  shared_book 1 (py "Bill") (py "(234) 567-8901") 0 0
                  ltac:(by vm_compute) ltac:(by vm_compute)
                  ltac:(apply (bool_decide_unpack _); by vm_compute)
                  eq_refl
                  ltac:(intros e He;
                        repeat (apply elem_of_cons in He as [->|He]; [done|]);
                        by apply elem_of_nil in He)
                  ltac:(done))).
  - intros r c. apply elem_of_remove_dups.
  - apply (bool_decide_unpack _). by vm_compute.
Defined.

(** X10: under the same conditions, when the character set of the
    stored value lists the full stop first, as it does in any order when
    the value is made of full stops only, the query for its key never
    returns: whatever the recursion limit, it ends in
    [RecursionError]. *)
Theorem X10_hashed_query_never_returns
    (hash : str → Z) (field : Z) (set_list : str → list ascii)
    (es : list (str * str)) (s : HashedDB.state) (i : nat) (k v : str)
    (limit n : nat) :
  256 ≤ field →
  add_entries (HashedDB.add_entry hash field) es HashedDB.init = (Ok (), s) →
  NoDup (HashedDB.keys s) →
  es !! i = Some (k, v) →
  (∀ e, e ∈ es → length e.2 = length v) → v ≠ [] →
  (head (set_list v) = Some dot →
     HashedDB.query hash field exact_get set_list limit n k s
     = (Raise RecursionError, s))
  ∧ ((∀ r c, c ∈ set_list r ↔ c ∈ r) → v = replicate (length v) dot →
     HashedDB.query hash field exact_get set_list limit n k s
     = (Raise RecursionError, s)).
Proof.
  intros Hf Hs Hnd Hi Hlen Hne.
  assert (head (set_list v) = Some dot →
            HashedDB.query hash field exact_get set_list limit n k s
            = (Raise RecursionError, s)) as Hhead.
  { intros Hc. apply hashed_query_exhausts. intros j _. exists v.
    rewrite (hashed_attempt_stored hash field set_list es s i k v) by done.
    rewrite Hc. cbn. by rewrite bool_decide_true. }
  split; [done|]. intros Hset Hdots. apply Hhead. clear Hhead.
  destruct (set_list v) as [|c cs] eqn:Hsl.
  - exfalso. destruct v as [|c v]; [done|].
    assert (c ∈ set_list (c :: v)) as Hin
      by (apply Hset; apply list_elem_of_here).
    rewrite Hsl in Hin. by apply elem_of_nil in Hin.
  - assert (c ∈ v) as Hin by (apply Hset; rewrite Hsl; apply list_elem_of_here).
    rewrite Hdots in Hin. apply elem_of_replicate_inv in Hin. by subst c.
Qed.

Lemma X10_hashed_query_never_returns_witness :
  HashedDB.query sample_hash securenn_field exact_get remove_dups 1000 0
    (py "Bob") shared_dots
  = (Raise RecursionError, shared_dots).
Proof.
  apply (proj2 (X10_hashed_query_never_returns sample_hash securenn_field
                  remove_dups [(py "Bob", py "...")] shared_dots 0
                  (py "Bob") (py "...") 1000 0
                  ltac:(by vm_compute) ltac:(by vm_compute)
                  ltac:(apply (bool_decide_unpack _); by vm_compute)
                  eq_refl
                  ltac:(intros e He;
                        repeat (apply elem_of_cons in He as [->|He]; [done|]);
                        by apply elem_of_nil in He)
                  ltac:(done))).
  - intros r c. apply elem_of_remove_dups.
  - done.
Defined.

(** ** The encoders of Section 7 *)

Lemma truncate_pad_take (s : str) (n : nat) :
  OneHotDB.truncate_pad (take n s) n = OneHotDB.truncate_pad s n.
Proof. unfold OneHotDB.truncate_pad. by rewrite take_take, Nat.min_id. Qed.

Lemma truncate_pad_app (s junk : str) (n : nat) :
  (n ≤ length s)%nat →
  OneHotDB.truncate_pad (s ++ junk) n = OneHotDB.truncate_pad s n.
Proof. intros Hn. unfold OneHotDB.truncate_pad. by rewrite take_app_le. Qed.

Lemma letters_lower_in_lowercase c :
  c ∈ alphabet_letters → lower_char c ∈ alphabet_lowercase.
Proof.
  assert (Forall (λ c, lower_char c ∈ alphabet_lowercase) alphabet_letters)
    as Hall by (apply (bool_decide_unpack _); by vm_compute).
  rewrite Forall_forall in Hall. apply Hall.
Qed.

(** X11: two keys that both encode have the same one-hot matrix
    exactly when, lowercased and cut or padded to [max_len] characters,
    they are the same string; so keys that differ only in case, beyond
    [max_len] characters, or by trailing full stops share one encoding. *)
Theorem X11_one_hot_keys_collide (s s' : str) (max_len : nat) (K K' : matrix) :
  OneHotDB.string2one_hot_matrix s max_len = Ok K →
  OneHotDB.string2one_hot_matrix s' max_len = Ok K' →
  (K = K'
   ↔ pad_or_truncate (lower s) max_len = pad_or_truncate (lower s') max_len).
Proof.
  intros HK HK'.
  apply string2one_hot_matrix_inv in HK as (_ & Hs & ->).
  apply string2one_hot_matrix_inv in HK' as (_ & Hs' & ->).
  rewrite <-!truncate_pad_spec. split; [by apply rows_inj|by intros ->].
Qed.

Lemma X11_one_hot_keys_collide_witness :
  rows (py "bob") = rows (py "bob")
  ↔ pad_or_truncate (lower (py "Bob")) 3
    = pad_or_truncate (lower (py "BOBBY")) 3.
Proof.
  apply (X11_one_hot_keys_collide (py "Bob") (py "BOBBY") 3).
  - by vm_compute.
  - by vm_compute.
Defined.

(** X12: both encoders of Section 7 read only the first [max_len]
    characters: a string, its first [max_len] characters, and the string
    followed by anything once it is [max_len] long, all get the same
    outcome, exceptions included. *)
Theorem X12_encoders_read_prefix (s junk : str) (max_len : nat) :
  OneHotDB.string2values (take max_len s) max_len
  = OneHotDB.string2values s max_len
  ∧ OneHotDB.string2one_hot_matrix (take max_len s) max_len
    = OneHotDB.string2one_hot_matrix s max_len
  ∧ ((max_len ≤ length s)%nat →
     OneHotDB.string2values (s ++ junk) max_len
     = OneHotDB.string2values s max_len
     ∧ OneHotDB.string2one_hot_matrix (s ++ junk) max_len
       = OneHotDB.string2one_hot_matrix s max_len).
Proof.
  unfold OneHotDB.string2values, OneHotDB.string2one_hot_matrix.
  rewrite truncate_pad_take.
  repeat split; try done; by rewrite truncate_pad_app.
Qed.

Lemma X12_encoders_read_prefix_witness :
  OneHotDB.string2values (py "Bob" ++ [tab]) 3
  = OneHotDB.string2values (py "Bob") 3
  ∧ OneHotDB.string2one_hot_matrix (py "Bob" ++ [tab]) 3
    = OneHotDB.string2one_hot_matrix (py "Bob") 3.
Proof.
  apply (X12_encoders_read_prefix (py "Bob") [tab] 3). by vm_compute.
Defined.

(** X13: every string that the encoder of Sections 2, 5 and 6
    accepts is accepted by both encoders of Section 7, at any width: its
    capital letters are lowercased into the smaller alphabet. *)
Theorem X13_section7_accepts_section5 (s : str) (t : tensor) (max_len : nat) :
  TensorDB.string2values s = Ok t →
  (∃ t', OneHotDB.string2values s max_len = Ok t' ∧ length t' = max_len)
  ∧ ((0 < max_len)%nat →
     ∃ K, OneHotDB.string2one_hot_matrix s max_len = Ok K
          ∧ length K = max_len).
Proof.
  intros Ht.
  assert (Forall (λ c, c ∈ alphabet_letters) s) as Hs.
  { destruct (decide (Forall (λ c, c ∈ alphabet_letters) s)) as [|Hn]; [done|].
    rewrite (tensordb_string2values_raise s Hn) in Ht. done. }
  assert (Forall (λ c, c ∈ alphabet_lowercase) (lower (take max_len s)))
    as Hlow.
  { unfold lower. apply Forall_fmap. apply Forall_take.
    eapply Forall_impl; [done|]. intros c Hc. cbn.
    by apply letters_lower_in_lowercase. }
  pose proof (truncate_pad_alphabet _ _ Hlow) as Hall. split.
  - destruct (encode_total alphabet_lowercase _ Hall) as [t' Ht'].
    change (OneHotDB.string2values s max_len = Ok t') in Ht'.
    exists t'. split; [done|]. by apply string2values_codes in Ht' as (-> & _).
  - intros Hn. exists (rows (OneHotDB.truncate_pad s max_len)).
    split; [by apply string2one_hot_matrix_ok|].
    unfold rows. by rewrite length_fmap, length_truncate_pad.
Qed.

Lemma X13_section7_accepts_section5_witness :
  (∃ t', OneHotDB.string2values (py "Really Big") 12 = Ok t'
         ∧ length t' = 12%nat)
  ∧ ((0 < 12)%nat →
     ∃ K, OneHotDB.string2one_hot_matrix (py "Really Big") 12 = Ok K
          ∧ length K = 12%nat).
Proof.
  apply (X13_section7_accepts_section5 (py "Really Big")
           [44; 5; 1; 12; 12; 25; 0; 28; 9; 7]).
  by vm_compute.
Defined.

(** ** Stores that grow *)

Section MatchingMore.

Context {K : Type}.

Implicit Types (matched : K → bool) (ks : list K) (vs : list tensor).

Lemma matching_elem_of matched ks : ∀ vs t,
  t ∈ matching matched ks vs → t ∈ vs.
Proof.
  induction ks as [|k ks IH]; intros vs t; [by intros ?%elem_of_nil|].
  destruct vs as [|v vs]; [done|]. cbn [matching].
  destruct (matched k).
  - intros [->|Ht]%elem_of_cons; [apply list_elem_of_here|].
    apply list_elem_of_further. by apply IH.
  - intros Ht. apply list_elem_of_further. by apply IH.
Qed.

Lemma matching_app matched ks ks' : ∀ vs vs',
  length ks = length vs →
  matching matched (ks ++ ks') (vs ++ vs')
  = matching matched ks vs ++ matching matched ks' vs'.
Proof.
  induction ks as [|k ks IH]; intros vs vs' Hl.
  - by destruct vs.
  - destruct vs as [|v vs]; [done|]. cbn [app matching].
    injection Hl as Hl. rewrite IH by done. by destruct (matched k).
Qed.

End MatchingMore.

Lemma length_tsum {A : Arith} (L : nat) (ts : list tensor) :
  Forall (λ t, length t = L) ts → length (tsum L ts) = L.
Proof.
  unfold tsum. intros Hts.
  assert (length (replicate L 0) = L) as Hacc by apply length_replicate.
  revert Hacc. generalize (replicate L 0).
  induction Hts as [|t ts Ht _ IH]; intros acc Hacc; [done|].
  cbn [fold_left]. apply IH. unfold zadd. rewrite length_zip_with. lia.
Qed.

Lemma add_entries_snoc {S} (add_entry : str → str → M S unit) es k v :
  ∀ s0 s s',
  add_entries add_entry es s0 = (Ok (), s) →
  add_entry k v s = (Ok (), s') →
  add_entries add_entry (es ++ [(k, v)]) s0 = (Ok (), s').
Proof.
  induction es as [|[k0 v0] es IH]; intros s0 s s'.
  - cbn. intros [= <-] Hadd. unfold mbind, M_bind. by rewrite Hadd.
  - cbn [app add_entries fst snd]. unfold mbind at 1 2, M_bind at 1 2.
    destruct (add_entry k0 v0 s0) as [[[]|e] s1]; [|done].
    apply IH.
Qed.

Section OneHotDB_more.

Variable field : Z.
Hypothesis field_big : 256 ≤ field.

Implicit Types (s : OneHotDB.state) (es : list (str * str)).

(** The decoded aggregate has the width of the values and no pad
    symbol is left in what [query] returns. *)
Lemma remove_dots_no_dot (r : str) : dot ∉ remove_dots r.
Proof. unfold remove_dots. intros [Hd _]%list_elem_of_filter. by apply Hd. Qed.

Lemma onehot_filled_lengths es mkl mvl s :
  add_entries (OneHotDB.add_entry field) es (OneHotDB.init mkl mvl)
  = (Ok (), s) →
  OneHotDB.max_key_len s = mkl
  ∧ length (OneHotDB.keys s) = length (OneHotDB.values s)
  ∧ Forall (λ t, length t = mvl) (OneHotDB.values s).
Proof.
  intros Hs.
  apply (onehot_add_entries field field_big)
    in Hs as (ts & Hmk & _ & Hks & Hvs & _ & Hts & _).
  cbn in Hmk, Hks, Hvs, Hts. split; [done|]. rewrite Hks, Hvs. split.
  - apply Forall2_length in Hts. by rewrite !length_fmap in *.
  - apply Forall_forall. intros t Ht.
    apply list_elem_of_lookup in Ht as [i Hi].
    destruct (Forall2_lookup_r _ _ _ _ _ Hts Hi) as (v & _ & Hv).
    by apply string2values_codes in Hv as (Hl & _).
Qed.

Lemma onehot_query_raise es mkl mvl s q :
  add_entries (OneHotDB.add_entry field) es (OneHotDB.init mkl mvl)
  = (Ok (), s) →
  ¬ Forall (λ c, c ∈ alphabet_lowercase) (lower (take mkl q)) →
  OneHotDB.query field q s = (Raise KeyError, s).
Proof.
  intros Hs Hq. apply onehot_filled_lengths in Hs as (Hmk & _).
  rewrite onehot_query_run. unfold OneHotDB.final_value. rewrite Hmk.
  by rewrite string2one_hot_matrix_raises.
Qed.

End OneHotDB_more.

(** X14: on a filled one-hot store every [query] ends: it raises
    [KeyError] exactly when one of the first [max_key_len] characters of
    the query, lowercased, is outside the alphabet, and otherwise returns
    a string of at most [max_value_len] characters without a full stop,
    leaving the store as it was. *)
Theorem X14_onehot_query_total
    (field : Z) (es : list (str * str)) (max_key_len max_value_len : nat)
    (s : OneHotDB.state) (q : str) :
  256 ≤ field →
  add_entries (OneHotDB.add_entry field) es
    (OneHotDB.init max_key_len max_value_len) = (Ok (), s) →
  es ≠ [] → (0 < max_value_len)%nat →
  (Forall (λ c, c ∈ alphabet_lowercase) (lower (take max_key_len q)) →
   ∃ r, OneHotDB.query field q s = (Ok r, s)
        ∧ (dot ∉ r) ∧ (length r ≤ max_value_len)%nat)
  ∧ (¬ Forall (λ c, c ∈ alphabet_lowercase) (lower (take max_key_len q)) →
     OneHotDB.query field q s = (Raise KeyError, s)).
Proof.
  intros Hf Hs Hne Hmvl. split.
  - intros Hq. rewrite onehot_query_run.
    rewrite (onehot_final_value field Hf es max_key_len max_value_len s)
      by (done || by apply truncate_pad_alphabet).
    cbn [fmap result_fmap]. eexists. split; [done|].
    split; [apply remove_dots_no_dot|].
    unfold remove_dots. etransitivity; [apply length_filter|].
    unfold OneHotDB.values2string, values2string_sentinel.
    rewrite length_fmap, length_tsum; [done|].
    apply (onehot_filled_lengths field Hf) in Hs as (_ & _ & Hvs).
    apply Forall_forall. intros t Ht%matching_elem_of.
    rewrite Forall_forall in Hvs. by apply Hvs.
  - by apply (onehot_query_raise field Hf es max_key_len max_value_len).
Qed.

Lemma X14_onehot_query_total_witness :
  (∃ r, OneHotDB.query securenn_field (py "Key") one_hot_book
        = (Ok r, one_hot_book)
        ∧ (dot ∉ r) ∧ (length r ≤ 20)%nat)
  ∧ OneHotDB.query securenn_field [tab] one_hot_book
    = (Raise KeyError, one_hot_book).
Proof.
  split.
  - apply (X14_onehot_query_total securenn_field
             [(py "Bob", py "(123) 456 7890");
              (py "Bill", py "(234) 567 8901");
              (py "Key", py "Really Big value.")] 3 20).
    + by vm_compute.
    + by vm_compute.
    + done.
    + lia.
    + apply (bool_decide_unpack _). by vm_compute.
  - apply (X14_onehot_query_total securenn_field
             [(py "Bob", py "(123) 456 7890");
              (py "Bill", py "(234) 567 8901");
              (py "Key", py "Really Big value.")] 3 20).
    + by vm_compute.
    + by vm_compute.
    + done.
    + lia.
    + apply (bool_decide_unpack _). by vm_compute.
Defined.

(** X15: the one-hot store finds a record by the lowercased first
    [max_key_len] characters of the key: with pairwise different stored
    keys, a query that agrees with a stored key on them, padded, gets
    that record's value, lowercased, cut to [max_value_len] and without
    full stops. *)
Theorem X15_onehot_query_normalised_key
    (field : Z) (es : list (str * str)) (max_key_len max_value_len : nat)
    (s : OneHotDB.state) (i : nat) (k v q : str) :
  256 ≤ field →
  add_entries (OneHotDB.add_entry field) es
    (OneHotDB.init max_key_len max_value_len) = (Ok (), s) →
  NoDup (OneHotDB.keys s) →
  es !! i = Some (k, v) →
  (0 < max_value_len)%nat →
  pad_or_truncate (lower q) max_key_len
  = pad_or_truncate (lower k) max_key_len →
  OneHotDB.query field q s
  = (Ok (remove_dots (lower (take max_value_len v))), s).
Proof.
  intros Hf Hs Hnd Hi Hmvl Hq. rewrite <-!truncate_pad_spec in Hq.
  assert (es ≠ []) as Hes by (intros ->; done).
  pose proof Hs as Hfill.
  apply (onehot_add_entries field Hf)
    in Hfill as (ts & _ & _ & Hks & Hvs & Hal & Hts & _).
  cbn in Hks, Hvs, Hal, Hts.
  assert (es.*1 !! i = Some k) as Hki by by rewrite list_lookup_fmap, Hi.
  assert (es.*2 !! i = Some v) as Hvi by by rewrite list_lookup_fmap, Hi.
  rewrite Forall_lookup in Hal. specialize (Hal i k Hki).
  destruct (Forall2_lookup_l _ _ _ _ _ Hts Hvi) as (t & Hti & Ht).
  apply string2values_codes in Ht as (Hl & Hb & Hd).
  rewrite onehot_query_run.
  rewrite (onehot_final_value field Hf es max_key_len max_value_len s)
    by (done || by rewrite Hq).
  rewrite Hq, (matching_unique _ _ _ i t); [|done| |by rewrite Hvs].
  - assert (tsum (H:=field_arith field) max_value_len [t] = t) as ->.
    { rewrite <-Hl. apply (tsum_one (AL:=field_laws field Hf)).
      by apply codes_small. }
    cbn [fmap result_fmap]. by rewrite Hd, remove_dots_truncate_pad.
  - by rewrite Hks, list_lookup_fmap, Hki.
Qed.

Lemma X15_onehot_query_normalised_key_witness :
  OneHotDB.query securenn_field (py "BILLY THE KID") one_hot_book
  = (Ok (remove_dots (lower (take 20 (py "(234) 567 8901")))), one_hot_book).
Proof.
  apply (X15_onehot_query_normalised_key securenn_field
           [(py "Bob", py "(123) 456 7890");
            (py "Bill", py "(234) 567 8901");
            (py "Key", py "Really Big value.")] 3 20 one_hot_book 1
           (py "Bill")).
  - by vm_compute.
  - by vm_compute.
  - apply (bool_decide_unpack _). by vm_compute.
  - done.
  - lia.
  - by vm_compute.
Defined.

(** X16: in a one-hot store that already holds an entry, filled by
    [add_entry] calls that all returned, with [max_value_len] at least 1
    and a field of at least 256, an [add_entry] that returns and
    whose key differs from the query on the lowercased, padded first
    [max_key_len] characters does not change what the query gives, result
    or exception. *)
Theorem X16_onehot_add_entry_frame
    (field : Z) (es : list (str * str)) (max_key_len max_value_len : nat)
    (s s' : OneHotDB.state) (k v q : str) :
  256 ≤ field →
  add_entries (OneHotDB.add_entry field) es
    (OneHotDB.init max_key_len max_value_len) = (Ok (), s) →
  es ≠ [] → (0 < max_value_len)%nat →
  OneHotDB.add_entry field k v s = (Ok (), s') →
  pad_or_truncate (lower k) max_key_len
  ≠ pad_or_truncate (lower q) max_key_len →
  (OneHotDB.query field q s').1 = (OneHotDB.query field q s).1.
Proof.
  intros Hf Hs Hne Hmvl Hadd Hkq. rewrite <-!truncate_pad_spec in Hkq.
  pose proof (add_entries_snoc _ es k v _ _ _ Hs Hadd) as Hs'.
  destruct (decide (Forall (λ c, c ∈ alphabet_lowercase)
                           (lower (take max_key_len q)))) as [Hq|Hq].
  - apply truncate_pad_alphabet in Hq.
    rewrite !onehot_query_run. cbn [fst].
    rewrite (onehot_final_value field Hf (es ++ [(k, v)])
               max_key_len max_value_len s')
      by (done || by destruct es).
    rewrite (onehot_final_value field Hf es max_key_len max_value_len s)
      by done.
    destruct (onehot_filled_lengths field Hf _ _ _ _ Hs) as (Hmk & Hl & _).
    destruct (onehot_add_entry_inv field _ _ _ _ Hadd) as (Hn & Hk & t & Hv).
    rewrite (onehot_add_entry_ok field Hf k v t) in Hadd by done.
    injection Hadd as <-. cbn [OneHotDB.keys OneHotDB.values].
    rewrite matching_app by done. cbn [matching]. unfold is_key at 2.
    rewrite bool_decide_false; [by rewrite app_nil_r|].
    rewrite Hmk in Hk |- *. intros Heq. apply Hkq. by apply rows_inj.
  - rewrite (onehot_query_raise field Hf _ _ _ _ _ Hs Hq).
    by rewrite (onehot_query_raise field Hf _ _ _ _ _ Hs' Hq).
Qed.

Lemma X16_onehot_add_entry_frame_witness :
  (OneHotDB.query securenn_field (py "Bob")
     (OneHotDB.add_entry securenn_field (py "Sue") (py "(345) 678 9012")
        one_hot_book).2).1
  = (OneHotDB.query securenn_field (py "Bob") one_hot_book).1.
Proof.
  apply (X16_onehot_add_entry_frame securenn_field
           [(py "Bob", py "(123) 456 7890");
            (py "Bill", py "(234) 567 8901");
            (py "Key", py "Really Big value.")] 3 20 one_hot_book _
           (py "Sue") (py "(345) 678 9012")).
  - by vm_compute.
  - by vm_compute.
  - done.
  - lia.
  - by vm_compute.
  - by vm_compute.
Defined.

(** X17: in a plaintext [TensorDB] that already holds an entry,
    filled by [add_entry] calls that all returned with values of one
    positive width, an [add_entry] that returns, of a value of that width
    and under an encoded key that differs from the query's, does not
    change what the query gives, result or exception. *)
Theorem X17_tensordb_add_entry_frame
    (hash : str → Z) (field : Z) (es : list (str * str)) (L : nat)
    (s s' : TensorDB.state) (k v q : str) :
  add_entries (TensorDB.add_entry hash field) es TensorDB.init = (Ok (), s) →
  es ≠ [] → (0 < L)%nat → (∀ e, e ∈ es → length e.2 = L) →
  length v = L →
  TensorDB.add_entry hash field k v s = (Ok (), s') →
  TensorDB.string2key hash field k ≠ TensorDB.string2key hash field q →
  (TensorDB.query hash field q s').1 = (TensorDB.query hash field q s).1.
Proof.
  intros Hs Hne HL Hlen Hv Hadd Hkq.
  pose proof (add_entries_snoc _ es k v _ _ _ Hs Hadd) as Hs'.
  rewrite !tensordb_query_run. cbn [fst].
  rewrite (tensordb_final_value hash field (es ++ [(k, v)]) s' L);
    [|done|by destruct es|done|].
  2:{ intros e [He| ->%list_elem_of_singleton]%elem_of_app; [by apply Hlen|done]. }
  rewrite (tensordb_final_value hash field es s L) by done.
  apply tensordb_add_entries in Hs as (ts & Hts & Hks & Hvs).
  cbn in Hks, Hvs.
  assert (length (TensorDB.keys s) = length (TensorDB.values s)) as Hl.
  { rewrite Hks, Hvs, (mapM_length _ _ _ Hts). by rewrite !length_fmap. }
  destruct (TensorDB.string2values v) as [t|e] eqn:Ht.
  - rewrite (tensordb_add_entry_ok hash field k v t) in Hadd by done.
    injection Hadd as <-. cbn [TensorDB.keys TensorDB.values].
    rewrite matching_app by done. cbn [matching]. unfold is_key at 2.
    by rewrite bool_decide_false, app_nil_r.
  - by rewrite (tensordb_add_entry_raise hash field k v e) in Hadd.
Qed.

Lemma X17_tensordb_add_entry_frame_witness :
  (TensorDB.query sample_hash securenn_field (py "Bob")
     (TensorDB.add_entry sample_hash securenn_field
        (py "Sam") (py "(456) 789-0123") phone_book).2).1
  = (TensorDB.query sample_hash securenn_field (py "Bob") phone_book).1.
Proof.
  apply (X17_tensordb_add_entry_frame sample_hash securenn_field
           [(py "Bob", py "(123) 456-7890");
            (py "Bill", py "(234) 567-8901");
            (py "Sue", py "(345) 678-9012")] 14 phone_book _
           (py "Sam") (py "(456) 789-0123")).
  - by vm_compute.
  - done.
  - lia.
  - intros e He. repeat (apply elem_of_cons in He as [->|He]; [done|]).
    by apply elem_of_nil in He.
  - done.
  - by vm_compute.
  - by vm_compute.
Defined.

(** ** The two lists of the secret-shared stores *)

Lemma hashed_string2values_raise (s : str) :
  ¬ Forall (λ c, c ∈ alphabet_letters) s →
  HashedDB.string2values s = Raise KeyError.
Proof.
  intros Hs. apply not_Forall_Exists in Hs; [|apply _].
  apply Exists_exists in Hs as (c & Hc & Hout).
  unfold HashedDB.string2values.
  change HashedDB.T with (make_tables alphabet_letters).
  by apply (encode_raise _ _ c).
Qed.

Lemma onehot_string2values_ok (v : str) (n : nat) :
  Forall (λ c, c ∈ alphabet_lowercase) (lower (take n v)) →
  ∃ t, OneHotDB.string2values v n = Ok t.
Proof.
  intros Hv%truncate_pad_alphabet.
  by apply (encode_total alphabet_lowercase).
Qed.

(** X18: in both [DecentralizedDB] classes [add_entry] is all or
    nothing.  With hashed keys it returns for a non-empty value over the
    alphabet; with one-hot keys, and [max_key_len] and [max_value_len] at
    least 1, it returns when the first [max_key_len] characters of the key
    and the first [max_value_len] characters of the value, lowercased, are
    over the alphabet.  It has then appended the encoded key to [keys] and
    the value's codes to [values], one each.  On any other key or value it
    raises [KeyError] and the store is as it was.  No [query], of any of
    the three classes, changes the store. *)
Theorem X18_add_entry_all_or_nothing
    (hash : str → Z) (field : Z) (k v : str) :
  256 ≤ field →
  (∀ s : HashedDB.state,
     (v ≠ [] → Forall (λ c, c ∈ alphabet_letters) v →
      ∃ t, HashedDB.string2values v = Ok t
           ∧ HashedDB.add_entry hash field k v s
             = (Ok (),
                {| HashedDB.keys :=
                     HashedDB.keys s
                     ++ [share (H:=field_arith field)
                           (HashedDB.string2key hash field k)];
                   HashedDB.values := HashedDB.values s ++ [t] |}))
     ∧ (¬ Forall (λ c, c ∈ alphabet_letters) v →
        HashedDB.add_entry hash field k v s = (Raise KeyError, s)))
  ∧ (∀ s : OneHotDB.state,
       (0 < OneHotDB.max_key_len s)%nat →
       (0 < OneHotDB.max_value_len s)%nat →
       (Forall (λ c, c ∈ alphabet_lowercase)
               (lower (take (OneHotDB.max_key_len s) k)) →
        Forall (λ c, c ∈ alphabet_lowercase)
               (lower (take (OneHotDB.max_value_len s) v)) →
        ∃ t, OneHotDB.string2values v (OneHotDB.max_value_len s) = Ok t
             ∧ OneHotDB.add_entry field k v s
               = (Ok (),
                  {| OneHotDB.max_key_len := OneHotDB.max_key_len s;
                     OneHotDB.max_value_len := OneHotDB.max_value_len s;
                     OneHotDB.keys :=
                       OneHotDB.keys s
                       ++ [rows (OneHotDB.truncate_pad k
                                   (OneHotDB.max_key_len s))];
                     OneHotDB.values := OneHotDB.values s ++ [t] |}))
       ∧ (¬ (Forall (λ c, c ∈ alphabet_lowercase)
                    (lower (take (OneHotDB.max_key_len s) k))
             ∧ Forall (λ c, c ∈ alphabet_lowercase)
                      (lower (take (OneHotDB.max_value_len s) v))) →
          OneHotDB.add_entry field k v s = (Raise KeyError, s)))
  ∧ (∀ q (s : TensorDB.state), (TensorDB.query hash field q s).2 = s)
  ∧ (∀ get set_list limit n q (s : HashedDB.state),
       (HashedDB.query hash field get set_list limit n q s).2 = s)
  ∧ (∀ q (s : OneHotDB.state), (OneHotDB.query field q s).2 = s).
Proof.
  intros Hf. split; [|split; [|split; [|split]]].
  - intros s. split.
    + intros _ Hv.
      destruct (encode_total alphabet_letters v Hv) as [t Ht].
      change (HashedDB.string2values v = Ok t) in Ht.
      exists t. split; [done|]. by apply (hashed_add_entry_ok hash field Hf).
    + intros Hv%hashed_string2values_raise.
      by apply hashed_add_entry_raise.
  - intros s Hn _. split.
    + intros Hk%truncate_pad_alphabet Hv.
      destruct (onehot_string2values_ok v _ Hv) as [t Ht].
      exists t. split; [done|]. by apply (onehot_add_entry_ok field Hf).
    + intros Hkv.
      unfold OneHotDB.add_entry, mbind, M_bind, modify, lift, gets.
      cbn [id].
      destruct (decide (Forall (λ c, c ∈ alphabet_lowercase)
                          (lower (take (OneHotDB.max_key_len s) k))))
        as [Hk|Hk].
      * rewrite string2one_hot_matrix_ok
          by (done || by apply truncate_pad_alphabet).
        cbn [fmap result_fmap].
        rewrite string2values_raises; [done|]. intros Hv. by apply Hkv.
      * by rewrite string2one_hot_matrix_raises.
  - intros q s. by rewrite tensordb_query_run.
  - intros get set_list limit n q s. apply hashed_query_readonly.
  - intros q s. by rewrite onehot_query_run.
Qed.

Lemma X18_add_entry_all_or_nothing_witness :
  (∃ t, HashedDB.string2values (py "hi") = Ok t
        ∧ HashedDB.add_entry sample_hash securenn_field (py "Sue") (py "hi")
            shared_book
          = (Ok (),
             {| HashedDB.keys :=
                  HashedDB.keys shared_book
                  ++ [share (H:=field_arith securenn_field)
                        (HashedDB.string2key sample_hash securenn_field
                           (py "Sue"))];
                HashedDB.values := HashedDB.values shared_book ++ [t] |}))
  ∧ OneHotDB.add_entry securenn_field (py "Sue") [tab] one_hot_book
    = (Raise KeyError, one_hot_book).
Proof.
  split.
  - apply (X18_add_entry_all_or_nothing sample_hash securenn_field
             (py "Sue") (py "hi")).
    + by vm_compute.
    + done.
    + apply (bool_decide_unpack _). by vm_compute.
  - apply (X18_add_entry_all_or_nothing sample_hash securenn_field
             (py "Sue") [tab]).
    + by vm_compute.
    + vm_compute. lia.
    + vm_compute. lia.
    + apply (bool_decide_unpack _). by vm_compute.
Defined.
